(** * The preprocessor utilities and the pickle cache

    Shallow embedding of [modules/ml/preprocessor/utils.py] (first the
    paragraph reconstruction of [tika_convert_files_to_dicts], then
    [convert_files_to_dicts], the SQuAD readers, [squad_json_to_jsonl] and
    the choice of the extractor in [fetch_archive_from_http]), of
    [autoload_data/utils/__init__.py] and of the Python built-ins they call,
    followed by their properties. *)

From Stdlib Require Import String Ascii.
From Stdlib Require Import List NArith ZArith Bool Arith Lia Permutation.
Import ListNotations.

(** ** Python values used by the function *)

Module Py.

(** A Python [str] is a sequence of Unicode code points. *)
Definition char := N.
Abbreviation str := (list char).

(** Literals: the code points of an ASCII string. *)
Definition lit (s : string) : str := map N_of_ascii (list_ascii_of_string s).

(** Exceptions the built-ins below can raise. *)
Inductive exn : Type :=
| IndexError
| ValueError.

Inductive result (A : Type) : Type :=
| Ok (a : A)
| Raise (e : exn).
Arguments Ok {A} a.
Arguments Raise {A} e.

Definition bind {A B} (m : result A) (k : A -> result B) : result B :=
  match m with
  | Ok a => k a
  | Raise e => Raise e
  end.

(** [for x in xs: body], the loop state threaded explicitly. *)
Fixpoint for_each {S A} (body : S -> A -> result S) (xs : list A) (st : S)
  : result S :=
  match xs with
  | [] => Ok st
  | x :: xs' => bind (body st x) (for_each body xs')
  end.

(** Truth value of a sequence: [if xs:]. *)
Definition truthy {A} (xs : list A) : bool :=
  match xs with
  | [] => false
  | _ :: _ => true
  end.

(** [Py_UNICODE_ISSPACE]: the whitespace test shared by [str.strip()] and
    by [\s] in a [str] pattern of [re]. *)
Definition isspace (c : char) : bool :=
  ((9 <=? c) && (c <=? 13) || (28 <=? c) && (c <=? 32)
   || (c =? 133) || (c =? 160) || (c =? 5760)
   || (8192 <=? c) && (c <=? 8202)
   || (c =? 8232) || (c =? 8233) || (c =? 8239) || (c =? 8287)
   || (c =? 12288))%N.

(** [s.strip()] *)
Fixpoint lstrip (s : str) : str :=
  match s with
  | [] => []
  | c :: s' => if isspace c then lstrip s' else s
  end.

Definition rstrip (s : str) : str := rev (lstrip (rev s)).

Definition strip (s : str) : str := rstrip (lstrip s).

(** [s.startswith(p)] *)
Fixpoint starts_with (p s : str) : bool :=
  match p, s with
  | [], _ => true
  | _ :: _, [] => false
  | a :: p', b :: s' => (a =? b)%N && starts_with p' s'
  end.

Definition push_head (c : char) (ps : list str) : list str :=
  match ps with
  | [] => [[c]]
  | p :: ps' => (c :: p) :: ps'
  end.

(** [s.split(sep)] scans left to right and cuts at every occurrence of
    [sep] that does not overlap the previous one; [skip] counts the
    characters of a matched separator still to be passed over. *)
Fixpoint split_from (sep : str) (skip : nat) (s : str) : list str :=
  match s with
  | [] => [[]]
  | c :: s' =>
      match skip with
      | S k => split_from sep k s'
      | O =>
          if starts_with sep s
          then [] :: split_from sep (length sep - 1) s'
          else push_head c (split_from sep 0 s')
      end
  end.

Definition split (s sep : str) : result (list str) :=
  match sep with
  | [] => Raise ValueError
  | _ :: _ => Ok (split_from sep 0 s)
  end.

(** [re.findall(r'\s+', s)]: the maximal runs of whitespace of [s]. *)
Fixpoint findall_spaces (s : str) : list str :=
  match s with
  | [] => []
  | c :: s' =>
      if isspace c then
        match s' with
        | [] => [[c]]
        | d :: _ =>
            if isspace d then push_head c (findall_spaces s')
            else [c] :: findall_spaces s'
        end
      else findall_spaces s'
  end.

(** [xs[i]], for a string (one character) or a list. *)
Definition getitem {A} (xs : list A) (i : Z) : result A :=
  let n := Z.of_nat (length xs) in
  let j := if (i <? 0)%Z then (i + n)%Z else i in
  if ((0 <=? j) && (j <? n))%Z then
    match nth_error xs (Z.to_nat j) with
    | Some x => Ok x
    | None => Raise IndexError
    end
  else Raise IndexError.

(** [xs[0] = v] *)
Definition set_first {A} (xs : list A) (v : A) : result (list A) :=
  match xs with
  | [] => Raise IndexError
  | _ :: xs' => Ok (v :: xs')
  end.

(** [xs.pop(-1)]: the last element and the list left behind. *)
Definition pop_last {A} (xs : list A) : result (A * list A) :=
  match rev xs with
  | [] => Raise IndexError
  | x :: r => Ok (x, rev r)
  end.

(** [c in s] for a one-character string [c]. *)
Definition char_in (c : char) (s : str) : bool :=
  existsb (fun d => (d =? c)%N) s.

Definition str_eqb (a b : str) : bool :=
  if list_eq_dec N.eq_dec a b then true else false.

(** A [dict] with string keys, in insertion order. *)
Definition dict (V : Type) := list (str * V).

Fixpoint dict_set {V} (d : dict V) (k : str) (v : V) : dict V :=
  match d with
  | [] => [(k, v)]
  | (k', v') :: d' =>
      if str_eqb k' k then (k, v) :: d' else (k', v') :: dict_set d' k v
  end.

End Py.

Import Py.

Notation "x <- c1 ;; c2" := (bind c1 (fun x => c2))
  (at level 61, c1 at next level, right associativity).
Notation "' pat <- c1 ;; c2" := (bind c1 (fun x => match x with pat => c2 end))
  (at level 61, pat pattern, c1 at next level, right associativity).

(** ** Constants of the source *)

(** ["\f"], ["\n\n"] and [' '] *)
Definition form_feed : str := [12%N].
Definition blank_line : str := [10%N; 10%N].
Definition space : str := [32%N].

(** The raw string literal tested by [not in]: full stop, question mark,
    exclamation mark, double quote, backslash, single quote, backslash,
    closing bracket, backslash, closing parenthesis.  A raw literal keeps
    the backslashes written before the quote, the bracket and the
    parenthesis, so the backslash is one of its characters. *)
Definition sentence_end : str :=
  [46; 63; 33; 34; 92; 39; 92; 93; 92; 41]%N.

(** ** Documents *)

Definition Meta := dict str.

(** What [converter.convert(path)] returns: [document["text"]] and
    [document["meta"]], the latter possibly [None]. *)
Record Converted : Type := {
  conv_text : str;
  conv_meta : option Meta
}.

(** An entry of [documents]: [{"text": ..., "meta": ...}]. *)
Record Doc : Type := {
  text : str;
  meta : Meta
}.

(** A [Path] as far as the function looks at it: [path.name],
    [path.suffix.lower()] and [path.is_dir()]. *)
Record Path : Type := {
  path_name : str;
  path_suffix_lower : str;
  path_is_dir : bool
}.

(** [meta = document["meta"] or {}] followed by [meta["name"] = path.name]:
    the metadata every document of one file carries. *)
Definition file_meta (name : str) (document : Converted) : Meta :=
  let meta :=
    match conv_meta document with
    | Some m => if truthy m then m else []
    | None => []
    end in
  dict_set meta (lit "name") name.

(** ** The function *)

Section Reconstructor.

(** [c.islower()] for a one-character string, from the Unicode database
    of the interpreter. *)
Variable islower : char -> bool.

(** The condition of the merge [if]:
    [merge_short and len(para) < 10 or len(re.findall(r'\s+', para)) < 2
     or merge_lowercase and para and para[0].islower() and last_para
     and last_para[-1] not in sentence_end] *)
Definition merge_condition (merge_short merge_lowercase : bool)
    (para last_para : str) : result bool :=
  if merge_short && (length para <? 10) then Ok true
  else if length (findall_spaces para) <? 2 then Ok true
  else if merge_lowercase then
    if truthy para then
      c <- getitem para 0 ;;
      if islower c then
        if truthy last_para then
          d <- getitem last_para (-1) ;;
          Ok (negb (char_in d sentence_end))
        else Ok false
      else Ok false
    else Ok false
  else Ok false.

(** Body of [for para in paras:], on the state [(last_para, documents)]. *)
Definition merge_para (merge_short merge_lowercase : bool) (meta : Meta)
    (st : str * list Doc) (para : str) : result (str * list Doc) :=
  let '(last_para, documents) := st in
  let para := strip para in
  if negb (truthy para) then Ok (last_para, documents)
  else
    b <- merge_condition merge_short merge_lowercase para last_para ;;
    if b then Ok (last_para ++ space ++ para, documents)
    else
      let documents :=
        if truthy last_para
        then documents ++ [{| text := last_para; meta := meta |}]
        else documents in
      Ok (para, documents).

(** Body of [for page in pages[1:]:], on the state [(paras, last_para)]. *)
Definition splice_page (st : list str * str) (page : str)
  : result (list str * str) :=
  let '(paras, last_para) := st in
  page_paras <- split page blank_line ;;
  if truthy page_paras then
    first <- getitem page_paras 0 ;;
    page_paras <- set_first page_paras (last_para ++ space ++ first) ;;
    '(last_para, page_paras) <- pop_last page_paras ;;
    Ok (paras ++ page_paras, last_para)
  else Ok (paras, last_para).

(** Body of [for path in file_paths:], on the state [documents]. *)
Definition convert_document (clean_func : option (str -> str))
    (split_paragraphs merge_short merge_lowercase : bool)
    (name : str) (document : Converted) (documents : list Doc)
  : result (list Doc) :=
  let meta := file_meta name document in
  let text := conv_text document in
  pages <- split text form_feed ;;
  if split_paragraphs then
    if truthy pages then
      page0 <- getitem pages 0 ;;
      paras <- split page0 blank_line ;;
      '(last_para, paras) <-
        (if truthy paras then pop_last paras else Ok ([], paras)) ;;
      '(paras, last_para) <-
        for_each splice_page (tl pages) (paras, last_para) ;;
      let paras := if truthy last_para then paras ++ [last_para] else paras in
      if truthy paras then
        '(last_para, documents) <-
          for_each (merge_para merge_short merge_lowercase meta) paras
                   ([], documents) ;;
        Ok (if truthy last_para
            then documents ++ [{| text := last_para; meta := meta |}]
            else documents)
      else Ok documents
    else Ok documents
  else
    let text :=
      match clean_func with
      | Some f => f text
      | None => text
      end in
    Ok (documents ++ [{| text := text; meta := meta |}]).

Definition allowed_suffixes : list str := [lit ".pdf"; lit ".txt"].

(** The function.  [paths] stands for the result of
    [Path(dir_path).glob("**/*")] and [convert] for
    [TikaConverter().convert]; the warning logged for a skipped file is not
    modelled. *)
Definition tika_convert_files_to_dicts (convert : Path -> Converted)
    (paths : list Path) (clean_func : option (str -> str))
    (split_paragraphs merge_short merge_lowercase : bool)
  : result (list Doc) :=
  let file_paths :=
    filter (fun p => existsb (str_eqb (path_suffix_lower p)) allowed_suffixes)
           paths in
  for_each
    (fun documents path =>
       convert_document clean_func split_paragraphs merge_short
                        merge_lowercase (path_name path) (convert path)
                        documents)
    file_paths [].

End Reconstructor.

(** [str.islower] on the ASCII range: the lowercase letters are [a] to [z]. *)
Definition ascii_islower (c : char) : bool := ((97 <=? c) && (c <=? 122))%N.

(** A converter result without metadata. *)
Definition plain (t : str) : Converted := {| conv_text := t; conv_meta := None |}.

(** ** What the proofs speak about *)

(** The non-whitespace characters of a string, in order. *)
Definition ink (s : str) : str := filter (fun c => negb (isspace c)) s.

(** The texts of a list of documents. *)
Definition texts (ds : list Doc) : list str := map text ds.

(** What the [else] branch of the merge [if] appends to [documents]. *)
Definition flushed (meta : Meta) (last_para : str) : list Doc :=
  if truthy last_para then [{| text := last_para; meta := meta |}] else [].

(** What [if clean_func: text = clean_func(text)] leaves in [text]. *)
Definition cleaned (clean_func : option (str -> str)) (t : str) : str :=
  match clean_func with
  | Some f => f t
  | None => t
  end.

(** ** Worked inputs *)

(** The metadata of a file called [a.txt] converted without metadata. *)
Definition a_txt : str := lit "a.txt".
Definition a_meta : Meta := [(lit "name", a_txt)].

Definition para (t : string) : Doc := {| text := lit t; meta := a_meta |}.

(** The sentence-ending characters as the specification lists them:
    full stop, question mark, exclamation mark, double quote, single quote,
    closing bracket, closing parenthesis. *)
Definition listed_sentence_end : str := [46; 63; 33; 34; 39; 93; 41]%N.

Definition hello_text : str :=
  lit "Hello world." ++ blank_line ++ lit "this continues." ++ blank_line
      ++ lit "A New Topic Here Clearly.".

Definition two_page_text : str :=
  lit "...end of pa" ++ form_feed
      ++ lit "ragraph one." ++ blank_line ++ lit "Second paragraph.".

Definition backslash_para : str := lit "Some text here" ++ [92%N].
Definition lowercase_para : str := lit "this one is long enough".
Definition backslash_text : str := backslash_para ++ blank_line ++ lowercase_para.

Definition short_first_text : str :=
  lit "Hi." ++ blank_line ++ lit "A New Topic Here Clearly.".

Definition blank_text : str :=
  lit "   " ++ blank_line ++ lit "  " ++ blank_line.

(** ** Further built-ins *)

(** [d.get(k)]: the value stored at [k], if any. *)
Definition dict_get {V} (d : dict V) (k : str) : option V :=
  match find (fun kv => str_eqb (fst kv) k) d with
  | Some kv => Some (snd kv)
  | None => None
  end.

(** [sep in s], for strings. *)
Fixpoint contains (sep s : str) : bool :=
  starts_with sep s
  || match s with
     | [] => false
     | _ :: s' => contains sep s'
     end.

(** The last character of [s] is not whitespace. *)
Definition ends_with_ink (s : str) : bool :=
  match rev s with
  | [] => false
  | c :: _ => negb (isspace c)
  end.

(** The first character of [s] is not whitespace. *)
Definition starts_with_ink (s : str) : bool :=
  match s with
  | [] => false
  | c :: _ => negb (isspace c)
  end.

Definition two_pages_no_blank_line : str :=
  lit "page one" ++ form_feed ++ lit "page two is here".

(** What [if last_para: paras.append(last_para)] appends to [paras]. *)
Definition pending (last_para : str) : list str :=
  if truthy last_para then [last_para] else [].

(** ** Errors of dictionaries and of dynamically typed values *)

Inductive error : Type :=
| KeyError
| TypeError
| AttributeError
| Builtin (e : exn).

Inductive outcome (A : Type) : Type :=
| Done (a : A)
| Fail (e : error).
Arguments Done {A} a.
Arguments Fail {A} e.

Definition and_then {A B} (m : outcome A) (k : A -> outcome B) : outcome B :=
  match m with
  | Done a => k a
  | Fail e => Fail e
  end.

Notation "x <-- c1 ;; c2" := (and_then c1 (fun x => c2))
  (at level 61, c1 at next level, right associativity).
Notation "' pat <-- c1 ;; c2" :=
  (and_then c1 (fun x => match x with pat => c2 end))
  (at level 61, pat pattern, c1 at next level, right associativity).

(** A built-in of the first part used where dictionaries are. *)
Definition lift {A} (r : result A) : outcome A :=
  match r with
  | Ok a => Done a
  | Raise e => Fail (Builtin e)
  end.

(** [for x in xs: body], for bodies that can fail with an [error]. *)
Fixpoint loop {S A} (body : S -> A -> outcome S) (xs : list A) (st : S)
  : outcome S :=
  match xs with
  | [] => Done st
  | x :: xs' => and_then (body st x) (loop body xs')
  end.

(** [k in d] and [d[k]] for a dictionary. *)
Definition dict_has {V} (d : dict V) (k : str) : bool :=
  match dict_get d k with
  | Some _ => true
  | None => false
  end.

Definition dict_item {V} (d : dict V) (k : str) : outcome V :=
  match dict_get d k with
  | Some v => Done v
  | None => Fail KeyError
  end.

(** ** [convert_files_to_dicts] *)

(** The converters of [modules.ml.file_converter] the function creates. *)
Inductive Converter : Type :=
| PDFToTextConverter
| TextConverter
| DocxToTextConverter.

Definition txt : str := lit ".txt".




(** The document of [convert_files_to_dicts]:
    [{"text": t, "meta": {"name": path.name}}]. *)
Definition named_doc (t : str) (path : Path) : Doc :=
  {| text := t; meta := [(lit "name", path_name path)] |}.

Section ConvertFiles.

(** [converter.convert(file_path=path, meta=None)] for each converter. *)
Variable convert_with : Converter -> Path -> Converted.

(** Body of [for para in text.split(blank_line):]. *)
Definition keep_para (path : Path) (documents : list Doc) (p : str)
  : outcome (list Doc) :=
  if negb (truthy (strip p)) then Done documents
  else Done (documents ++ [named_doc p path]).

(** Body of the inner [for path in paths:], on the state [documents]. *)
Definition convert_path (suffix2converter : dict Converter)
    (clean_func : option (str -> str)) (split_paragraphs : bool)
    (suffix : str) (documents : list Doc) (path : Path)
  : outcome (list Doc) :=
  converter <-- dict_item suffix2converter suffix ;;
  let document := convert_with converter path in
  let text := conv_text document in
  let text := cleaned clean_func text in
  if split_paragraphs then
    paras <-- lift (split text blank_line) ;;
    loop (keep_para path) paras documents
  else Done (documents ++ [named_doc text path]).


End ConvertFiles.







(** The path of the file [a.txt]. *)
Definition a_path : Path :=
  {| path_name := a_txt; path_suffix_lower := txt; path_is_dir := false |}.

(** ** SQuAD files: values read by [json] *)

(** What [json.load] and [json.loads] return.  A float keeps its literal:
    the code only passes numbers on. *)
Inductive json : Type :=
| JNull
| JBool (b : bool)
| JInt (n : Z)
| JFloat (literal : str)
| JStr (s : str)
| JList (xs : list json)
| JDict (d : dict json).

(** [x[k]] with a string [k]: only a dictionary takes a string subscript. *)
Definition item (x : json) (k : str) : outcome json :=
  match x with
  | JDict d => dict_item d k
  | _ => Fail TypeError
  end.

(** [x[0]]: a dictionary read by [json] has string keys only. *)
Definition first_item (x : json) : outcome json :=
  match x with
  | JList xs => lift (getitem xs 0)
  | JStr s => lift (c <- getitem s 0 ;; Ok (JStr [c]))
  | JDict _ => Fail KeyError
  | _ => Fail TypeError
  end.

(** [k in x] with a string [k]. *)
Definition member (k : str) (x : json) : outcome bool :=
  match x with
  | JDict d => Done (dict_has d k)
  | JList xs =>
      Done (existsb (fun y => match y with
                              | JStr s => str_eqb s k
                              | _ => false
                              end) xs)
  | JStr s => Done (contains k s)
  | _ => Fail TypeError
  end.

(** [x.items()] *)
Definition items (x : json) : outcome (dict json) :=
  match x with
  | JDict d => Done d
  | _ => Fail AttributeError
  end.

(** [x.get(k, None)] *)
Definition get_or_none (x : json) (k : str) : outcome json :=
  match x with
  | JDict d => Done match dict_get d k with
                    | Some v => v
                    | None => JNull
                    end
  | _ => Fail AttributeError
  end.

(** [len(x)] *)
Definition len (x : json) : outcome nat :=
  match x with
  | JStr s => Done (length s)
  | JList xs => Done (length xs)
  | JDict d => Done (length d)
  | _ => Fail TypeError
  end.

(** [for y in x]: the elements of a list, the characters of a string, the
    keys of a dictionary. *)
Definition iter (x : json) : outcome (list json) :=
  match x with
  | JList xs => Done xs
  | JStr s => Done (map (fun c => JStr [c]) s)
  | JDict d => Done (map (fun kv => JStr (fst kv)) d)
  | _ => Fail TypeError
  end.

(** [d.update(other)], and a dictionary built from its items. *)
Definition dict_update {V} (d other : dict V) : dict V :=
  fold_left (fun d kv => dict_set d (fst kv) (snd kv)) other d.

(** [{k: v for k, v in its if k not in ks}] *)
Definition dict_without {V} (its : dict V) (ks : list str) : dict V :=
  dict_update [] (filter (fun kv => negb (existsb (str_eqb (fst kv)) ks)) its).

(** [max_docs] is set: [if max_docs:] for [None], an [int] or a [bool]
    (read as 0 or 1). *)
Definition limit_reached (max_docs : option Z) (docs : nat) : bool :=
  match max_docs with
  | None => false
  | Some m => negb (m =? 0)%Z && (m <? Z.of_nat docs)%Z
  end.

(** ** SQuAD files: the functions *)

Section Squad.

(** The containers of [modules.ml].  A [Document] keeps the text and the
    metadata it is given and has an [id] of its own; [new_id n] stands for
    the id of the [n]-th [Document] made.  A [Label] keeps its arguments. *)
Variable ID : Type.
Variable new_id : nat -> ID.

Record Document : Type := {
  document_text : json;
  document_meta : dict json;
  document_id : ID
}.

Record Label : Type := {
  question : json;
  answer : json;
  is_correct_answer : bool;
  is_correct_document : bool;
  label_document_id : ID;
  offset_start_in_doc : json;
  no_answer : json;
  origin : str
}.

(** Body of [for answer in qa["answers"]:], on the state [labels]. *)
Definition label_answer (qa : json) (cur_doc : Document) (labels : list Label)
    (answer : json) : outcome (list Label) :=
  q <-- item qa (lit "question") ;;
  a <-- item answer (lit "text") ;;
  start <-- item answer (lit "answer_start") ;;
  impossible <-- item qa (lit "is_impossible") ;;
  Done (labels ++ [{| question := q;
                      answer := a;
                      is_correct_answer := true;
                      is_correct_document := true;
                      label_document_id := document_id cur_doc;
                      offset_start_in_doc := start;
                      no_answer := impossible;
                      origin := lit "gold_label" |}]).

(** Body of [for qa in paragraph["qas"]:], on the state [labels]. *)
Definition label_qa (cur_doc : Document) (labels : list Label) (qa : json)
  : outcome (list Label) :=
  answers <-- item qa (lit "answers") ;;
  n <-- len answers ;;
  if 0 <? n then
    answers <-- item qa (lit "answers") ;;
    answers <-- iter answers ;;
    loop (label_answer qa cur_doc) answers labels
  else
    q <-- item qa (lit "question") ;;
    impossible <-- item qa (lit "is_impossible") ;;
    Done (labels ++ [{| question := q;
                        answer := JStr [];
                        is_correct_answer := true;
                        is_correct_document := true;
                        label_document_id := document_id cur_doc;
                        offset_start_in_doc := JInt 0;
                        no_answer := impossible;
                        origin := lit "gold_label" |}]).

(** Body of [for paragraph in document_dict["paragraphs"]:], on the state
    [(docs, labels)] and the number of documents made so far. *)
Definition extract_paragraph (document_dict : json) (meta_doc : dict json)
    (st : list Document * list Label * nat) (paragraph : json)
  : outcome (list Document * list Label * nat) :=
  let '(docs, labels, made) := st in
  title <-- get_or_none document_dict (lit "title") ;;
  let cur_meta := [(lit "name", title)] in
  its <-- items paragraph ;;
  let meta_paragraph := dict_without its [lit "qas"; lit "context"] in
  let cur_meta := dict_update cur_meta meta_paragraph in
  let cur_meta := dict_update cur_meta meta_doc in
  context <-- item paragraph (lit "context") ;;
  let cur_doc := {| document_text := context;
                    document_meta := cur_meta;
                    document_id := new_id made |} in
  let docs := docs ++ [cur_doc] in
  qas <-- item paragraph (lit "qas") ;;
  qas <-- iter qas ;;
  labels <-- loop (label_qa cur_doc) qas labels ;;
  Done (docs, labels, S made).

(** [_extract_docs_and_labels_from_dict]; [made] counts the documents made
    before the call, and the count after it is returned with the result. *)
Definition _extract_docs_and_labels_from_dict (made : nat) (document_dict : json)
  : outcome (list Document * list Label * nat) :=
  its <-- items document_dict ;;
  let meta_doc := dict_without its [lit "paragraphs"; lit "title"] in
  paragraphs <-- item document_dict (lit "paragraphs") ;;
  paragraphs <-- iter paragraphs ;;
  loop (extract_paragraph document_dict meta_doc) paragraphs ([], [], made).

(** [for document in data["data"]:] of [eval_data_from_json], with its
    [break]. *)
Fixpoint read_documents (max_docs : option Z) (documents : list json)
    (st : list Document * list Label * nat)
  : outcome (list Document * list Label * nat) :=
  match documents with
  | [] => Done st
  | document :: rest =>
      let '(docs, labels, made) := st in
      if limit_reached max_docs (length docs) then Done st
      else
        '(cur_docs, cur_labels, made) <--
          _extract_docs_and_labels_from_dict made document ;;
        read_documents max_docs rest
                       (docs ++ cur_docs, labels ++ cur_labels, made)
  end.

(** [eval_data_from_json], on the value [json.load] read from the file. *)
Definition eval_data_from_json (data : json) (max_docs : option Z)
  : outcome (list Document * list Label) :=
  documents <-- item data (lit "data") ;;
  first <-- first_item documents ;;
  _ <-- member (lit "title") first ;;
  documents <-- item data (lit "data") ;;
  documents <-- iter documents ;;
  '(docs, labels, _) <-- read_documents max_docs documents ([], [], 0) ;;
  Done (docs, labels).

(** [json.loads], which raises on a line that is not JSON. *)
Variable loads : str -> outcome json.

(** [eval_data_from_jsonl] run to its end on the lines of the file: the
    pairs it yields, in order, and the error that ended it, if any.
    [st] is [(docs, labels)] and the number of documents made so far. *)
Fixpoint read_lines (batch_size max_docs : option Z) (lines : list str)
    (st : list Document * list Label * nat)
  : list (list Document * list Label) * option error :=
  let '(docs, labels, made) := st in
  match lines with
  | [] => ([(docs, labels)], None)
  | document :: rest =>
      if limit_reached max_docs (length docs) then ([(docs, labels)], None)
      else
        match (document_dict <-- loads document ;;
               _extract_docs_and_labels_from_dict made document_dict) with
        | Fail e => ([], Some e)
        | Done (cur_docs, cur_labels, made) =>
            let docs := docs ++ cur_docs in
            let labels := labels ++ cur_labels in
            let full :=
              match batch_size with
              | None => false
              | Some b => (b <=? Z.of_nat (length docs))%Z
              end in
            if full then
              let '(yielded, e) :=
                read_lines batch_size max_docs rest ([], [], made) in
              ((docs, labels) :: yielded, e)
            else read_lines batch_size max_docs rest (docs, labels, made)
        end
  end.

Definition eval_data_from_jsonl (lines : list str)
    (batch_size max_docs : option Z)
  : list (list Document * list Label) * option error :=
  read_lines batch_size max_docs lines ([], [], 0).

End Squad.

Arguments document_text {ID} _.
Arguments document_meta {ID} _.
Arguments document_id {ID} _.
Arguments label_document_id {ID} _.
Arguments question {ID} _.
Arguments answer {ID} _.
Arguments offset_start_in_doc {ID} _.
Arguments no_answer {ID} _.

(** A SQuAD document with one paragraph and two questions, the second
    one without an answer. *)
Definition squad_answer : json :=
  JDict [(lit "text", JStr (lit "Paris")); (lit "answer_start", JInt 12)].

Definition squad_question : json :=
  JDict [(lit "question", JStr (lit "Where?"));
         (lit "answers", JList [squad_answer]);
         (lit "is_impossible", JBool false)].

Definition squad_open_question : json :=
  JDict [(lit "question", JStr (lit "Why?"));
         (lit "answers", JList []);
         (lit "is_impossible", JBool true)].

Definition squad_paragraph : json :=
  JDict [(lit "context", JStr (lit "It lies in Paris."));
         (lit "qas", JList [squad_question; squad_open_question])].

Definition squad_fields : dict json :=
  [(lit "title", JStr (lit "Cities"));
   (lit "paragraphs", JList [squad_paragraph]);
   (lit "name", JStr (lit "atlas"))].

Definition squad_document : json := JDict squad_fields.

(** A SQuAD file with three copies of the document, and an empty one. *)
Definition squad_data : json :=
  JDict [(lit "data", JList [squad_document; squad_document; squad_document])].

Definition squad_no_data : dict json := [(lit "data", JList [])].

(** The pairs yielded before the last one when the generator ends
    normally, all of them when it is ended by an error. *)
Definition batches {A} (run : list A * option error) : list A :=
  match snd run with
  | None => removelast (fst run)
  | Some _ => fst run
  end.

(** ** [squad_json_to_jsonl] *)

(** What reading a text file gives for the line ends written in it:
    a carriage return, alone or before a line feed, is read as a line
    feed. *)
Fixpoint universal_newlines (s : str) : str :=
  match s with
  | [] => []
  | c :: s' =>
      if (c =? 13)%N then
        10%N :: match s' with
                | [] => []
                | d :: s'' =>
                    if (d =? 10)%N then universal_newlines s''
                    else universal_newlines s'
                end
      else c :: universal_newlines s'
  end.

(** The lines of a text, each with its line feed; the last one may have
    none. *)
Fixpoint lines_of (s : str) : list str :=
  match s with
  | [] => []
  | c :: s' =>
      if (c =? 10)%N then [c] :: lines_of s'
      else match lines_of s' with
           | [] => [[c]]
           | l :: ls => (c :: l) :: ls
           end
  end.

(** [for document in file:] on a file opened for reading as text. *)
Definition file_lines (content : str) : list str :=
  lines_of (universal_newlines content).

(** No line end in a string. *)
Definition one_line (s : str) : bool :=
  forallb (fun c => negb (c =? 10)%N && negb (c =? 13)%N) s.

Section SquadToJsonl.

(** [json.dump], as the text it writes. *)
Variable dumps : json -> str.

(** [squad_json_to_jsonl], on the value read from [squad_file]: the text
    written to [output_file] when the function returns. *)
Definition squad_json_to_jsonl (squad_json : json) : outcome str :=
  docs <-- item squad_json (lit "data") ;;
  docs <-- iter docs ;;
  loop (fun written doc => Done (written ++ dumps doc ++ [10%N])) docs [].

End SquadToJsonl.

(** A writer for the worked SQuAD file. *)
Definition dumps_braces (doc : json) : str := lit "{}".

Definition squad_single : json := JDict [(lit "data", JList [squad_document])].

(** ** [fetch_archive_from_http]: the tests on the url *)

(** [s[-n:]] for a positive [n]: the last [n] characters of [s], all of
    [s] when it has fewer. *)
Definition last_chars (n : nat) (s : str) : str := skipn (length s - n) s.

(** [s.endswith(suffix)] *)
Definition ends_with (suffix s : str) : bool := starts_with (rev suffix) (rev s).

(** [s.replace(old, "")] for a non-empty [old]: the pieces between the
    occurrences of [old], joined. *)
Definition remove_all (old s : str) : str := concat (split_from old 0 s).

(** The branches of the [if]/[elif] chain on [url] that follows the
    download: the one with [zipfile], the one with [tarfile], the one with
    [gzip] and the [else] with its warning. *)
Inductive Branch : Type :=
| ZipBranch
| TarBranch
| GzBranch
| ElseBranch.

(** The tests of the chain, [url[-4:] == ".zip"], [url[-7:] == ".tar.gz"]
    and [url[-3:] == ".gz"], in their order: the branch that is entered.
    What the branch then does is not said here. *)
Definition branch_of_url (url : str) : Branch :=
  if str_eqb (last_chars 4 url) (lit ".zip") then ZipBranch
  else if str_eqb (last_chars 7 url) (lit ".tar.gz") then TarBranch
  else if str_eqb (last_chars 3 url) (lit ".gz") then GzBranch
  else ElseBranch.

(** [filename = url.split("/")[-1].replace(".gz", "")] of the [gzip]
    branch. *)
Definition gz_filename (url : str) : result str :=
  parts <- split url (lit "/") ;;
  name <- getitem parts (-1) ;;
  Ok (remove_all (lit ".gz") name).

(** ** [save_body_to_pickle] and [load_body_from_pickle] *)

(** The files by name: the bytes of a regular file, or no such file. *)
Definition bytes := list N.
Definition files := str -> option bytes.

(** [open(fn, 'wb+')], a write and [close()]. *)
Definition write_file (fs : files) (fn : str) (content : bytes) : files :=
  fun f => if str_eqb f fn then Some content else fs f.

Section Pickle.

(** The items kept in the file, what [pickle.dump] writes for a list of
    them, and what [pickle.load] reads: [None] when it raises. *)
Variable Item : Type.
Variable pickle_dump : list Item -> bytes.
Variable pickle_load : bytes -> option (list Item).

(** [save_body_to_pickle(items, fn)]: the files when it returns. *)
Definition save_body_to_pickle (fs : files) (items : list Item) (fn : str)
  : files :=
  let old_items := [] in
  let old_items :=
    match fs fn with
    | Some content =>
        match pickle_load content with
        | Some loaded => loaded
        | None => old_items
        end
    | None => old_items
    end in
  let old_items := old_items ++ items in
  write_file fs fn (pickle_dump old_items).

(** [load_body_from_pickle(fn)] *)
Definition load_body_from_pickle (fs : files) (fn : str) : list Item :=
  let all_items := [] in
  match fs fn with
  | Some content =>
      match pickle_load content with
      | Some loaded => loaded
      | None => all_items
      end
  | None => all_items
  end.

End Pickle.

(** A pickle of numbers, one byte each, for the worked files. *)
Definition dump_numbers (items : list nat) : bytes := map N.of_nat items.
Definition load_numbers (content : bytes) : option (list nat) :=
  Some (map N.to_nat content).

(** No file at all, and a pickle file name. *)
Definition no_files : files := fun _ => None.
Definition items_pkl : str := lit "items.pkl".

(** A document made outside the functions, and a parser that reads the
    worked SQuAD document from every line. *)
Definition some_document : Document nat :=
  {| document_text := JNull; document_meta := []; document_id := 7 |}.

Definition loads_squad_document (line : str) : outcome json :=
  Done squad_document.

(** ** The built-ins *)

Lemma bind_ok {A B} (a : A) (k : A -> result B) : bind (Ok a) k = k a.
Proof. reflexivity. Qed.

Lemma truthy_false {A} (xs : list A) : truthy xs = false <-> xs = [].
Proof. destruct xs; simpl; split; congruence. Qed.

Lemma truthy_true {A} (xs : list A) : truthy xs = true <-> xs <> [].
Proof. destruct xs; simpl; split; congruence. Qed.

Lemma ink_app (a b : str) : ink (a ++ b) = ink a ++ ink b.
Proof. apply filter_app. Qed.

Lemma ink_rev (s : str) : ink (rev s) = rev (ink s).
Proof.
  induction s as [|c s IH]; simpl; [reflexivity|].
  rewrite ink_app, IH. simpl.
  destruct (isspace c); simpl; [apply app_nil_r | reflexivity].
Qed.

Lemma ink_space : ink space = [].
Proof. reflexivity. Qed.

Lemma ink_lstrip (s : str) : ink (lstrip s) = ink s.
Proof.
  induction s as [|c s IH]; simpl; [reflexivity|].
  destruct (isspace c) eqn:E; simpl; [exact IH | now rewrite E].
Qed.

Lemma ink_strip (s : str) : ink (strip s) = ink s.
Proof.
  unfold strip, rstrip.
  now rewrite ink_rev, ink_lstrip, ink_rev, rev_involutive, ink_lstrip.
Qed.

Lemma lstrip_nil (s : str) : ink s = [] -> lstrip s = [].
Proof.
  induction s as [|c s IH]; simpl; [reflexivity|].
  destruct (isspace c); simpl; [exact IH | discriminate].
Qed.

(** [strip] leaves nothing exactly when the string has no ink. *)
Lemma strip_nil (s : str) : strip s = [] <-> ink s = [].
Proof.
  split; intros H.
  - rewrite <- ink_strip, H. reflexivity.
  - unfold strip, rstrip. rewrite (lstrip_nil s H). reflexivity.
Qed.

Lemma concat_push_head (c : char) (ps : list str) :
  concat (push_head c ps) = c :: concat ps.
Proof. destruct ps; reflexivity. Qed.

Lemma split_from_not_nil (sep : str) (s : str) :
  forall skip, split_from sep skip s <> [].
Proof.
  induction s as [|c s IH]; intros skip; simpl; [discriminate|].
  destruct skip; [|apply IH].
  destruct (starts_with sep (c :: s)); [discriminate|].
  destruct (split_from sep 0 s) eqn:E; simpl; discriminate.
Qed.

Lemma starts_with_firstn (p s : str) :
  starts_with p s = true -> firstn (length p) s = p.
Proof.
  revert s; induction p as [|a p IH]; intros [|b s]; simpl; try easy.
  rewrite andb_true_iff, N.eqb_eq. intros [-> H]. now rewrite IH.
Qed.

(** Splitting at a separator made of whitespace loses no ink. *)
Lemma ink_split_from (sep : str) :
  sep <> [] -> ink sep = [] ->
  forall s skip, ink (firstn skip s) = [] ->
            ink (concat (split_from sep skip s)) = ink s.
Proof.
  intros Hne Hsep. induction s as [|c s IH]; intros skip Hskip; [reflexivity|].
  simpl split_from. destruct skip as [|k].
  - destruct (starts_with sep (c :: s)) eqn:E.
    + destruct sep as [|a sep']; [congruence|].
      simpl in E. rewrite andb_true_iff, N.eqb_eq in E. destruct E as [-> E].
      simpl in Hsep. destruct (isspace c) eqn:Ec; simpl in Hsep; [|discriminate].
      replace (length (c :: sep') - 1)%nat with (length sep') by (simpl; lia).
      simpl concat.
      rewrite IH; [simpl; now rewrite Ec|].
      now rewrite (starts_with_firstn _ _ E).
    + rewrite concat_push_head. simpl. now rewrite (IH 0%nat eq_refl).
  - simpl in Hskip. destruct (isspace c) eqn:Ec; simpl in Hskip; [|discriminate].
    simpl. rewrite Ec. simpl. now apply IH.
Qed.

Lemma getitem_first {A} (x : A) (xs : list A) : getitem (x :: xs) 0 = Ok x.
Proof.
  unfold getitem. cbv zeta. change (0 <? 0)%Z with false. cbv iota.
  assert (H : (0 <? Z.of_nat (length (x :: xs)))%Z = true)
    by (apply Z.ltb_lt; simpl length; lia).
  rewrite H. reflexivity.
Qed.

Lemma getitem_last {A} (xs : list A) (x : A) : getitem (xs ++ [x]) (-1) = Ok x.
Proof.
  unfold getitem. cbv zeta. change (-1 <? 0)%Z with true. cbv iota.
  rewrite length_app, Nat2Z.inj_add. change (Z.of_nat (length [x])) with 1%Z.
  replace (-1 + (Z.of_nat (length xs) + 1))%Z with (Z.of_nat (length xs)) by lia.
  assert (H0 : (0 <=? Z.of_nat (length xs))%Z = true) by (apply Z.leb_le; lia).
  assert (H1 : (Z.of_nat (length xs) <? Z.of_nat (length xs) + 1)%Z = true)
    by (apply Z.ltb_lt; lia).
  rewrite H0, H1, Nat2Z.id, nth_error_app2, Nat.sub_diag by lia. reflexivity.
Qed.

Lemma pop_last_snoc {A} (xs : list A) (x : A) : pop_last (xs ++ [x]) = Ok (x, xs).
Proof. unfold pop_last. rewrite rev_unit, rev_involutive. reflexivity. Qed.

Lemma snoc_of_not_nil {A} (xs : list A) :
  xs <> [] -> exists r x, xs = r ++ [x].
Proof. intros H. destruct (exists_last H) as [r [x ->]]. now exists r, x. Qed.

Lemma for_each_app {S A} (body : S -> A -> result S) (xs ys : list A) (st : S) :
  for_each body (xs ++ ys) st = bind (for_each body xs st) (for_each body ys).
Proof.
  revert st; induction xs as [|x xs IH]; intros st; simpl; [reflexivity|].
  destruct (body st x) as [st'|e]; simpl; [apply IH | reflexivity].
Qed.

(** ** The merge pass *)

Section MergePass.

Variable islower : char -> bool.
Variables merge_short merge_lowercase : bool.
Variable m : Meta.

Local Abbreviation step := (merge_para islower merge_short merge_lowercase m).

(** The guards [para and ...] and [last_para and ...] keep both
    subscripts in range: the condition always has a truth value. *)
Lemma merge_condition_total (para last_para : str) :
  exists b,
    merge_condition islower merge_short merge_lowercase para last_para = Ok b.
Proof.
  unfold merge_condition.
  destruct (merge_short && (length para <? 10)); [now exists true|].
  destruct (length (findall_spaces para) <? 2); [now exists true|].
  destruct merge_lowercase; [|now exists false].
  destruct para as [|c para]; simpl truthy; cbv iota; [now exists false|].
  rewrite getitem_first, bind_ok.
  destruct (islower c); [|now exists false].
  destruct (truthy last_para) eqn:E; [|now exists false].
  apply truthy_true, snoc_of_not_nil in E. destruct E as (r & x & ->).
  rewrite getitem_last, bind_ok. eauto.
Qed.

(** The three things one iteration can do: skip a paragraph without ink,
    append to the pending paragraph, or close it and start the next. *)
Lemma merge_para_cases (last_para : str) (documents : list Doc) (para : str) :
  (strip para = [] /\ step (last_para, documents) para = Ok (last_para, documents))
  \/ (strip para <> [] /\
      merge_condition islower merge_short merge_lowercase
                      (strip para) last_para = Ok true /\
      step (last_para, documents) para
      = Ok (last_para ++ space ++ strip para, documents))
  \/ (strip para <> [] /\
      merge_condition islower merge_short merge_lowercase
                      (strip para) last_para = Ok false /\
      step (last_para, documents) para
      = Ok (strip para, documents ++ flushed m last_para)).
Proof.
  unfold merge_para.
  destruct (truthy (strip para)) eqn:E; simpl negb; cbv iota.
  - apply truthy_true in E. right.
    destruct (merge_condition_total (strip para) last_para) as [[|] Hb];
      rewrite Hb, bind_ok; [left | right]; repeat split; try assumption.
    unfold flushed. destruct (truthy last_para); [reflexivity|].
    now rewrite app_nil_r.
  - apply truthy_false in E. now left.
Qed.

(** The whole loop: it ends normally, only appends to [documents], keeps
    the ink of what it read, and closes no paragraph without ink. *)
Lemma merge_loop_spec (paras : list str) :
  forall (last_para : str) (documents : list Doc),
    (last_para = [] \/ ink last_para <> []) ->
    exists last_para' new,
      for_each step paras (last_para, documents)
      = Ok (last_para', documents ++ new)
      /\ ink (concat (texts new) ++ last_para')
         = ink last_para ++ ink (concat paras)
      /\ (last_para' = [] \/ ink last_para' <> [])
      /\ (last_para <> [] \/ Exists (fun q => strip q <> []) paras ->
          last_para' <> [])
      /\ Forall (fun d => ink (text d) <> [] /\ meta d = m) new.
Proof.
  induction paras as [|para paras IH]; intros last_para documents Hlast.
  - exists last_para, []. simpl. rewrite !app_nil_r.
    repeat split; auto.
    intros [H|H]; [exact H | inversion H].
  - cbn [for_each].
    assert (Hink : strip para <> [] -> ink (strip para) <> [])
      by (intros H C; apply H, strip_nil; now rewrite <- ink_strip).
    destruct (merge_para_cases last_para documents para)
      as [[Hs ->] | [(Hs & _ & ->) | (Hs & _ & ->)]]; rewrite bind_ok.
    + destruct (IH last_para documents Hlast) as (l' & new & E & Hi & Hl & Hne & Hf).
      exists l', new. split; [exact E|]. split; [|split; [exact Hl|split; [|exact Hf]]].
      * rewrite Hi. simpl concat. rewrite ink_app.
        apply strip_nil in Hs. now rewrite Hs.
      * intros [H|H]; apply Hne; [now left|].
        inversion H; subst; [contradiction | now right].
    + destruct (IH (last_para ++ space ++ strip para) documents)
        as (l' & new & E & Hi & Hl & Hne & Hf).
      { right. rewrite !ink_app. intros C.
        apply app_eq_nil in C. destruct C as [_ C].
        apply app_eq_nil in C. destruct C as [_ C]. now apply Hink. }
      exists l', new. split; [exact E|]. split; [|split; [exact Hl|split; [|exact Hf]]].
      * rewrite Hi. simpl concat.
        rewrite !ink_app, ink_space, ink_strip. simpl. now rewrite app_assoc.
      * intros _. apply Hne. left. intros C.
        apply app_eq_nil in C. destruct C as [_ C]. discriminate.
    + destruct (IH (strip para) (documents ++ flushed m last_para))
        as (l' & new & E & Hi & Hl & Hne & Hf).
      { right. now apply Hink. }
      exists l', (flushed m last_para ++ new).
      split; [|split; [|split; [exact Hl|split]]].
      * rewrite E. now rewrite app_assoc.
      * assert (Hfl : concat (texts (flushed m last_para)) = last_para)
          by (destruct last_para; simpl; [reflexivity | now rewrite app_nil_r]).
        unfold texts in *.
        rewrite map_app, concat_app, <- app_assoc, ink_app, Hi, Hfl.
        simpl concat. now rewrite ink_app, ink_strip.
      * intros _. apply Hne. now left.
      * apply Forall_app. split; [|exact Hf].
        unfold flushed. destruct (truthy last_para) eqn:T; constructor; auto.
        simpl. split; [|reflexivity].
        destruct Hlast as [->|H]; [discriminate | exact H].
Qed.

End MergePass.

(** ** Splicing the pages *)

Lemma ink_split_pages (t : str) : ink (concat (split_from form_feed 0 t)) = ink t.
Proof. now apply ink_split_from. Qed.

Lemma ink_split_paras (t : str) : ink (concat (split_from blank_line 0 t)) = ink t.
Proof. now apply ink_split_from. Qed.

Lemma concat_snoc {A} (xs : list (list A)) (x : list A) :
  concat (xs ++ [x]) = concat xs ++ x.
Proof. rewrite concat_app. simpl. now rewrite app_nil_r. Qed.

(** One page: the pending paragraph is glued in front of the first
    paragraph of the page, and the last one becomes pending. *)
Lemma splice_page_spec (paras : list str) (last_para page : str) :
  exists paras' last_para',
    splice_page (paras, last_para) page = Ok (paras', last_para')
    /\ ink (concat paras' ++ last_para')
       = ink (concat paras ++ last_para) ++ ink page.
Proof.
  unfold splice_page, split, blank_line. rewrite bind_ok.
  fold blank_line.
  pose proof (ink_split_paras page) as Hpage.
  destruct (split_from blank_line 0 page) as [|first rest] eqn:E.
  - now apply split_from_not_nil in E.
  - cbn [truthy]. rewrite getitem_first, bind_ok. cbn [set_first]. rewrite bind_ok.
    destruct (snoc_of_not_nil ((last_para ++ space ++ first) :: rest))
      as (r & x & Hrx); [discriminate|].
    rewrite Hrx, pop_last_snoc, bind_ok.
    exists (paras ++ r), x. split; [reflexivity|].
    rewrite concat_app, <- app_assoc, <- (concat_snoc r x), <- Hrx.
    cbn [concat] in *. rewrite !ink_app in *. rewrite ink_space, <- Hpage.
    cbn [app]. now rewrite <- !app_assoc.
Qed.

Lemma splice_loop_spec (pages : list str) :
  forall (paras : list str) (last_para : str),
  exists paras' last_para',
    for_each splice_page pages (paras, last_para) = Ok (paras', last_para')
    /\ ink (concat paras' ++ last_para')
       = ink (concat paras ++ last_para) ++ ink (concat pages).
Proof.
  induction pages as [|page pages IH]; intros paras last_para.
  - exists paras, last_para. simpl. now rewrite app_nil_r.
  - cbn [for_each].
    destruct (splice_page_spec paras last_para page) as (p1 & l1 & -> & H1).
    rewrite bind_ok.
    destruct (IH p1 l1) as (p2 & l2 & E & H2).
    exists p2, l2. split; [exact E|].
    rewrite H2, H1. cbn [concat]. rewrite (ink_app page). now rewrite app_assoc.
Qed.

(** ** One document, [split_paragraphs=True] *)

Section OneDocument.

Variable islower : char -> bool.
Variable clean_func : option (str -> str).
Variables merge_short merge_lowercase : bool.
Variable name : str.
Variable document : Converted.

(** The reconstruction ends normally; what it appends to [documents]
    carries the ink of the converter text, in order, and every appended
    paragraph has some ink and the metadata of the file. *)
Lemma reconstruct_spec (documents : list Doc) :
  exists new,
    convert_document islower clean_func true merge_short merge_lowercase
                     name document documents
    = Ok (documents ++ new)
    /\ ink (concat (texts new)) = ink (conv_text document)
    /\ Forall (fun d => ink (text d) <> [] /\ meta d = file_meta name document)
              new.
Proof.
  unfold convert_document. cbv zeta.
  set (m := file_meta name document).
  unfold split at 1. unfold form_feed at 1. rewrite bind_ok. fold form_feed.
  pose proof (ink_split_pages (conv_text document)) as Htext.
  destruct (split_from form_feed 0 (conv_text document)) as [|page0 pages] eqn:E.
  { now apply split_from_not_nil in E. }
  cbn [truthy tl]. rewrite getitem_first, bind_ok.
  unfold split at 1. unfold blank_line at 1. rewrite bind_ok. fold blank_line.
  pose proof (ink_split_paras page0) as Hpage0.
  destruct (snoc_of_not_nil (split_from blank_line 0 page0))
    as (r & x & Hrx); [apply split_from_not_nil|].
  rewrite Hrx in *. 
  replace (truthy (r ++ [x])) with true by (now destruct r).
  rewrite pop_last_snoc, bind_ok.
  destruct (splice_loop_spec pages r x) as (paras & last_para & -> & Hsp).
  rewrite bind_ok.
  set (paras' := if truthy last_para then paras ++ [last_para] else paras).
  assert (Hparas : ink (concat paras') = ink (conv_text document)).
  { assert (Hc : concat paras' = concat paras ++ last_para).
    { subst paras'. destruct last_para; cbn [truthy].
      - now rewrite app_nil_r.
      - now rewrite concat_snoc. }
    cbn [concat] in Htext. rewrite ink_app in Htext.
    now rewrite Hc, Hsp, <- (concat_snoc r x), Hpage0. }
  clearbody paras'.
  destruct (truthy paras') eqn:T.
  - destruct (merge_loop_spec islower merge_short merge_lowercase m paras'
                              [] documents (or_introl eq_refl))
      as (l & new & -> & Hi & Hl & _ & Hf).
    rewrite bind_ok. exists (new ++ flushed m l). split; [|split].
    + unfold flushed. destruct (truthy l); [now rewrite app_assoc|].
      now rewrite !app_nil_r.
    + rewrite <- Hparas. cbn [app ink filter] in Hi. rewrite <- Hi.
      unfold texts. rewrite map_app, concat_app. f_equal. f_equal.
      destruct l; simpl; [reflexivity | now rewrite app_nil_r].
    + apply Forall_app. split; [exact Hf|].
      unfold flushed. destruct (truthy l) eqn:Tl; constructor; auto.
      simpl. split; [|reflexivity].
      destruct Hl as [->|H]; [discriminate | exact H].
  - apply truthy_false in T. subst paras'.
    exists []. rewrite app_nil_r. repeat split; auto.
Qed.

End OneDocument.

(** ** Properties of the reconstructor *)

(** C1. On the one-page text [Hello world.], blank line, [this continues.],
    blank line, [A New Topic Here Clearly.], with the default options, the
    function appends two documents; the first paragraph is appended to the
    empty pending paragraph after a joining space, so the first text is
    [ Hello world. this continues.] with a leading space, and the second is
    [A New Topic Here Clearly.].  This holds whatever the lowercase table. *)
Theorem hello_world_leading_space (islower : char -> bool) :
  convert_document islower None true true true a_txt (plain hello_text) []
  = Ok [para " Hello world. this continues."; para "A New Topic Here Clearly."].
Proof.
  vm_compute. destruct (islower 65%N); reflexivity.
Qed.

(** C2, as the claim has it: the two-page input does not give the two
    paragraphs [...end of paragraph one.] and [Second paragraph.]. *)
Lemma two_pages_not_as_claimed :
  convert_document ascii_islower None true true true a_txt (plain two_page_text) []
  <> Ok [para "...end of paragraph one."; para "Second paragraph."].
Proof. vm_compute. discriminate. Qed.

(** C2, amended.  On the two-page input whose first page is [...end of pa]
    and whose second page is [ragraph one.], blank line, [Second paragraph.],
    the splice joins the two halves with a space, and the merge pass appends
    [Second paragraph.], which has fewer than two runs of whitespace, to the
    pending paragraph: one document comes out, with the text
    [...end of pa ragraph one. Second paragraph.]. *)
Theorem two_pages_one_paragraph (islower : char -> bool) :
  convert_document islower None true true true a_txt (plain two_page_text) []
  = Ok [para "...end of pa ragraph one. Second paragraph."].
Proof.
  vm_compute. destruct (islower 46%N); reflexivity.
Qed.

(** The lowercase rule as the code has it: a paragraph whose first
    character is lowercase is appended to a pending paragraph whose last
    character is outside [sentence_end]. *)
Lemma lowercase_merge (islower : char -> bool) (merge_short : bool) (m : Meta)
    (pending : str) (d : char) (documents : list Doc) (p : str)
    (c : char) (rest : str) :
  strip p = c :: rest ->
  islower c = true ->
  char_in d sentence_end = false ->
  merge_para islower merge_short true m (pending ++ [d], documents) p
  = Ok ((pending ++ [d]) ++ space ++ strip p, documents).
Proof.
  intros Hp Hc Hd. unfold merge_para. rewrite Hp. cbn [truthy negb].
  unfold merge_condition.
  destruct (merge_short && (length (c :: rest) <? 10)); [reflexivity|].
  destruct (length (findall_spaces (c :: rest)) <? 2); [reflexivity|].
  cbn [truthy]. rewrite getitem_first, bind_ok, Hc.
  replace (truthy (pending ++ [d])) with true by (now destruct pending).
  now rewrite getitem_last, !bind_ok, Hd.
Qed.

(** C3. The pending paragraph [Some text here\] ends with a backslash,
    which is not among the sentence-ending characters the claim lists, and
    the next paragraph [this one is long enough] starts with a lowercase
    letter; yet the code does not merge them: the backslash is a character
    of the raw literal the code tests against, so the pending paragraph is
    closed and the lowercase paragraph starts a new one. *)
Theorem backslash_blocks_lowercase_merge :
  ascii_islower 116%N = true
  /\ char_in 92%N listed_sentence_end = false
  /\ char_in 92%N sentence_end = true
  /\ merge_para ascii_islower true true a_meta (backslash_para, []) lowercase_para
     = Ok (lowercase_para, [{| text := backslash_para; meta := a_meta |}])
  /\ convert_document ascii_islower None true true true a_txt
                      (plain backslash_text) []
     = Ok [{| text := backslash_para; meta := a_meta |};
           {| text := lowercase_para; meta := a_meta |}].
Proof. repeat split; vm_compute; reflexivity. Qed.

(** C4, as the claim has it: in the text [Hi.], blank line,
    [A New Topic Here Clearly.] the raw paragraph [Hi.] has three
    characters and is not the only content, and it comes out as a document
    of its own (behind the joining space). *)
Lemma short_first_paragraph_stands_alone :
  split short_first_text blank_line
  = Ok [lit "Hi."; lit "A New Topic Here Clearly."]
  /\ length (strip (lit "Hi.")) = 3
  /\ convert_document ascii_islower None true true true a_txt
                      (plain short_first_text) []
     = Ok [para " Hi."; para "A New Topic Here Clearly."].
Proof. repeat split; vm_compute; reflexivity. Qed.

(** In the merge pass, with [merge_short] set, an element of the list the
    pass reads whose stripped length is below 10 and which follows an
    element with ink is appended to the pending paragraph, which is not
    empty, behind one joining space, and the pass appends no document at
    that step.  (The elements are the paragraphs after the splice of the
    pages, not the raw paragraphs of the text.) *)
Lemma short_paragraph_joins_pending (islower : char -> bool)
    (merge_lowercase : bool) (m : Meta) (before : list str) (p : str)
    (documents : list Doc) :
  strip p <> [] ->
  length (strip p) < 10 ->
  Exists (fun q => strip q <> []) before ->
  exists last_para new,
    last_para <> []
    /\ for_each (merge_para islower true merge_lowercase m) before
                ([], documents)
       = Ok (last_para, documents ++ new)
    /\ for_each (merge_para islower true merge_lowercase m) (before ++ [p])
                ([], documents)
       = Ok (last_para ++ space ++ strip p, documents ++ new).
Proof.
  intros Hne Hlen Hbefore.
  destruct (merge_loop_spec islower true merge_lowercase m before [] documents
                            (or_introl eq_refl))
    as (l & new & E & _ & _ & Hl & _).
  exists l, new. split; [|split; [exact E|]].
  - apply Hl. now right.
  - rewrite for_each_app, E, bind_ok. cbn [for_each]. unfold merge_para.
    apply truthy_true in Hne. rewrite Hne. cbn [negb].
    unfold merge_condition. apply Nat.ltb_lt in Hlen. rewrite Hlen.
    reflexivity.
Qed.


(** C6, as the claim has it: without [split_paragraphs] an empty converter
    text is appended as a document with the empty text. *)
Lemma empty_text_document :
  convert_document ascii_islower None false true true a_txt (plain []) []
  = Ok [{| text := []; meta := a_meta |}].
Proof. reflexivity. Qed.

(** C6, amended.  With [split_paragraphs] set, for every converter text
    and every setting of [merge_short], [merge_lowercase] and [clean_func],
    no document the function appends has the empty text. *)
Theorem split_paragraphs_never_empty (islower : char -> bool)
    (clean_func : option (str -> str)) (merge_short merge_lowercase : bool)
    (name : str) (document : Converted) (documents : list Doc) :
  exists new,
    convert_document islower clean_func true merge_short merge_lowercase
                     name document documents
    = Ok (documents ++ new)
    /\ Forall (fun d => text d <> []) new.
Proof.
  destruct (reconstruct_spec islower clean_func merge_short merge_lowercase
                             name document documents) as (new & E & _ & H).
  exists new. split; [exact E|].
  eapply Forall_impl; [|exact H]. intros d [Hd _] C. apply Hd.
  now rewrite C.
Qed.

(** C7. Without [split_paragraphs] the function appends exactly one
    document, whatever the text: its text is the converter text, passed
    through [clean_func] when one is given and otherwise untouched, and its
    metadata is the metadata of the file. *)
Theorem unsplit_single_document (islower : char -> bool)
    (clean_func : option (str -> str)) (merge_short merge_lowercase : bool)
    (name : str) (document : Converted) (documents : list Doc) :
  convert_document islower clean_func false merge_short merge_lowercase
                   name document documents
  = Ok (documents ++ [{| text := cleaned clean_func (conv_text document);
                         meta := file_meta name document |}]).
Proof. reflexivity. Qed.

Lemma ink_nil_of_spaces (t : str) : forallb isspace t = true -> ink t = [].
Proof.
  induction t as [|c t IH]; simpl; [reflexivity|].
  rewrite andb_true_iff. intros [-> H]. simpl. now apply IH.
Qed.

(** C8. A converter text made of whitespace only gives no document: with
    [split_paragraphs] set, the function returns [documents] as it got it. *)
Theorem blank_text_no_document (islower : char -> bool)
    (clean_func : option (str -> str)) (merge_short merge_lowercase : bool)
    (name : str) (document : Converted) (documents : list Doc) :
  forallb isspace (conv_text document) = true ->
  convert_document islower clean_func true merge_short merge_lowercase
                   name document documents
  = Ok documents.
Proof.
  intros Hblank. apply ink_nil_of_spaces in Hblank.
  destruct (reconstruct_spec islower clean_func merge_short merge_lowercase
                             name document documents) as (new & E & Hi & Hf).
  rewrite E. destruct new as [|d new]; [now rewrite app_nil_r|].
  exfalso. inversion Hf as [|? ? [Hd _] _]; subst. apply Hd.
  rewrite Hblank in Hi. cbn [texts map concat] in Hi. rewrite ink_app in Hi.
  now apply app_eq_nil in Hi.
Qed.

Lemma blank_text_no_document_witness :
  forallb isspace (conv_text (plain blank_text)) = true
  /\ convert_document ascii_islower None true true true a_txt (plain blank_text) []
     = Ok [].
Proof.
  split.
  - reflexivity.
  - apply (blank_text_no_document ascii_islower None true true a_txt
             (plain blank_text) []).
    reflexivity.
Defined.

(** One document never raises, whatever the options. *)
Lemma convert_document_total (islower : char -> bool)
    (clean_func : option (str -> str))
    (split_paragraphs merge_short merge_lowercase : bool)
    (name : str) (document : Converted) (documents : list Doc) :
  exists documents',
    convert_document islower clean_func split_paragraphs merge_short
                     merge_lowercase name document documents
    = Ok documents'.
Proof.
  destruct split_paragraphs.
  - destruct (reconstruct_spec islower clean_func merge_short merge_lowercase
                               name document documents) as (new & E & _).
    eauto.
  - eexists. reflexivity.
Qed.

(** C9. The reconstruction is total: for every converter text, empty
    pages and the empty text included, and every setting of the options,
    the body of the file loop returns a list of documents and raises
    nothing, so every subscript and every [pop] it makes is in range; and
    so does the whole function on any list of paths. *)
Theorem never_raises (islower : char -> bool)
    (clean_func : option (str -> str))
    (split_paragraphs merge_short merge_lowercase : bool) :
  (forall name document documents,
      exists documents',
        convert_document islower clean_func split_paragraphs merge_short
                         merge_lowercase name document documents
        = Ok documents')
  /\ (forall convert paths,
         exists documents',
           tika_convert_files_to_dicts islower convert paths clean_func
                                       split_paragraphs merge_short
                                       merge_lowercase
           = Ok documents').
Proof.
  split.
  - intros. apply convert_document_total.
  - intros convert paths. unfold tika_convert_files_to_dicts.
    generalize (@nil Doc).
    induction (filter _ paths) as [|path file_paths IH]; intros documents.
    + eexists. reflexivity.
    + cbn [for_each].
      destruct (convert_document_total islower clean_func split_paragraphs
                  merge_short merge_lowercase (path_name path) (convert path)
                  documents) as (documents1 & ->).
      rewrite bind_ok. apply IH.
Qed.

(** With [split_paragraphs] set, the body of the file loop does not look
    at [clean_func]. *)
Lemma convert_document_ignores_clean_func (islower : char -> bool)
    (f g : option (str -> str)) (merge_short merge_lowercase : bool)
    (name : str) (document : Converted) (documents : list Doc) :
  convert_document islower f true merge_short merge_lowercase
                   name document documents
  = convert_document islower g true merge_short merge_lowercase
                     name document documents.
Proof. reflexivity. Qed.

(** C10. With [split_paragraphs] set, [clean_func] is never applied: for
    the same converter and the same paths, any two cleaning functions, or
    one and none, give the same result. *)
Theorem clean_func_unused_when_splitting (islower : char -> bool)
    (convert : Path -> Converted) (paths : list Path)
    (f g : option (str -> str)) (merge_short merge_lowercase : bool) :
  tika_convert_files_to_dicts islower convert paths f true
                              merge_short merge_lowercase
  = tika_convert_files_to_dicts islower convert paths g true
                                merge_short merge_lowercase.
Proof.
  unfold tika_convert_files_to_dicts. generalize (@nil Doc).
  induction (filter _ paths) as [|path file_paths IH]; intros documents.
  - reflexivity.
  - cbn [for_each].
    rewrite (convert_document_ignores_clean_func islower f g).
    destruct (convert_document islower g true merge_short merge_lowercase
                (path_name path) (convert path) documents); [apply IH|].
    reflexivity.
Qed.


(** ** Further properties of [tika_convert_files_to_dicts] *)

Lemma str_eqb_refl (a : str) : str_eqb a a = true.
Proof. unfold str_eqb. now destruct (list_eq_dec N.eq_dec a a). Qed.

Lemma str_eqb_eq (a b : str) : str_eqb a b = true <-> a = b.
Proof. unfold str_eqb. destruct (list_eq_dec N.eq_dec a b); split; congruence. Qed.

Lemma dict_get_set_same {V} (d : dict V) (k : str) (v : V) :
  dict_get (dict_set d k v) k = Some v.
Proof.
  unfold dict_get. induction d as [|[k' v'] d IH]; simpl.
  - now rewrite str_eqb_refl.
  - destruct (str_eqb k' k) eqn:E; simpl.
    + now rewrite str_eqb_refl.
    + now rewrite E.
Qed.

Lemma dict_get_set_other {V} (d : dict V) (k k' : str) (v : V) :
  k' <> k -> dict_get (dict_set d k v) k' = dict_get d k'.
Proof.
  intros Hk. unfold dict_get. induction d as [|[k0 v0] d IH]; simpl.
  - destruct (str_eqb k k') eqn:E; [|reflexivity].
    apply str_eqb_eq in E. congruence.
  - destruct (str_eqb k0 k) eqn:E; simpl.
    + apply str_eqb_eq in E. subst k0.
      destruct (str_eqb k k') eqn:E'; [|reflexivity].
      apply str_eqb_eq in E'. congruence.
    + destruct (str_eqb k0 k'); [reflexivity | exact IH].
Qed.

(** X1. Every document the function appends for a file carries the name
    of the file under the key [name], with or without [split_paragraphs],
    also when the metadata of the converter had a [name] of its own. *)
Theorem emitted_name_is_path_name (islower : char -> bool)
    (clean_func : option (str -> str))
    (split_paragraphs merge_short merge_lowercase : bool)
    (name : str) (document : Converted) (documents : list Doc) :
  exists new,
    convert_document islower clean_func split_paragraphs merge_short
                     merge_lowercase name document documents
    = Ok (documents ++ new)
    /\ Forall (fun d => dict_get (meta d) (lit "name") = Some name) new.
Proof.
  destruct split_paragraphs.
  - destruct (reconstruct_spec islower clean_func merge_short merge_lowercase
                               name document documents) as (new & E & _ & H).
    exists new. split; [exact E|].
    eapply Forall_impl; [|exact H]. intros d [_ ->].
    apply dict_get_set_same.
  - eexists. split; [reflexivity|]. constructor; [|constructor].
    apply dict_get_set_same.
Qed.

Lemma split_pages_ok (t : str) :
  split t form_feed = Ok (split_from form_feed 0 t).
Proof. reflexivity. Qed.

Lemma split_paras_ok (t : str) :
  split t blank_line = Ok (split_from blank_line 0 t).
Proof. reflexivity. Qed.

(** With [split_paragraphs] set, the body of the file loop is the merge
    pass over the spliced paragraphs: those of the first page but the last,
    then what the page loop leaves, then the pending paragraph. *)
Lemma convert_document_shape (islower : char -> bool)
    (clean_func : option (str -> str)) (merge_short merge_lowercase : bool)
    (name : str) (document : Converted) (documents : list Doc) :
  exists page0 pages r x ps last_para,
    split_from form_feed 0 (conv_text document) = page0 :: pages
    /\ split_from blank_line 0 page0 = r ++ [x]
    /\ for_each splice_page pages (r, x) = Ok (ps, last_para)
    /\ convert_document islower clean_func true merge_short merge_lowercase
                        name document documents
       = ('(l, d) <-
            for_each (merge_para islower merge_short merge_lowercase
                                 (file_meta name document))
                     (ps ++ pending last_para) ([], documents) ;;
          Ok (d ++ flushed (file_meta name document) l)).
Proof.
  unfold convert_document. cbv zeta.
  set (m := file_meta name document).
  rewrite split_pages_ok, bind_ok.
  destruct (split_from form_feed 0 (conv_text document)) as [|page0 pages] eqn:E.
  { now apply split_from_not_nil in E. }
  cbn [truthy tl]. rewrite getitem_first, bind_ok.
  rewrite split_paras_ok, bind_ok.
  destruct (snoc_of_not_nil (split_from blank_line 0 page0))
    as (r & x & Hrx); [apply split_from_not_nil|].
  rewrite Hrx.
  replace (truthy (r ++ [x])) with true by (now destruct r).
  rewrite pop_last_snoc, bind_ok.
  destruct (splice_loop_spec pages r x) as (ps & last_para & Hsp & _).
  rewrite Hsp, bind_ok.
  exists page0, pages, r, x, ps, last_para.
  split; [reflexivity|]. split; [exact Hrx|]. split; [exact Hsp|].
  replace (if truthy last_para then ps ++ [last_para] else ps)
    with (ps ++ pending last_para)
    by (unfold pending; destruct (truthy last_para);
        [reflexivity | apply app_nil_r]).
  destruct (truthy (ps ++ pending last_para)) eqn:T.
  - destruct (for_each _ (ps ++ pending last_para) ([], documents))
      as [[l d]|e]; [|reflexivity].
    rewrite !bind_ok. unfold flushed. destruct (truthy l); [reflexivity|].
    now rewrite app_nil_r.
  - apply truthy_false in T. rewrite T. cbn [for_each]. rewrite bind_ok.
    cbn [flushed truthy]. now rewrite app_nil_r.
Qed.

(** The merge pass does not look at the documents already there. *)
Lemma merge_para_frame (islower : char -> bool) (merge_short merge_lowercase : bool)
    (m : Meta) (last_para : str) (documents acc : list Doc) (p : str) :
  merge_para islower merge_short merge_lowercase m (last_para, documents ++ acc) p
  = ('(l, d) <- merge_para islower merge_short merge_lowercase m (last_para, acc) p ;;
     Ok (l, documents ++ d)).
Proof.
  unfold merge_para. destruct (negb (truthy (strip p))); [reflexivity|].
  destruct (merge_condition islower merge_short merge_lowercase (strip p) last_para)
    as [[|]|e]; cbn [bind]; try reflexivity.
  destruct (truthy last_para); [|reflexivity]. now rewrite app_assoc.
Qed.

Lemma merge_loop_frame (islower : char -> bool) (merge_short merge_lowercase : bool)
    (m : Meta) (paras : list str) :
  forall (last_para : str) (documents acc : list Doc),
    for_each (merge_para islower merge_short merge_lowercase m) paras
             (last_para, documents ++ acc)
    = ('(l, d) <- for_each (merge_para islower merge_short merge_lowercase m)
                           paras (last_para, acc) ;;
       Ok (l, documents ++ d)).
Proof.
  induction paras as [|p paras IH]; intros last_para documents acc.
  - reflexivity.
  - cbn [for_each]. rewrite merge_para_frame.
    destruct (merge_para islower merge_short merge_lowercase m (last_para, acc) p)
      as [[l d]|e]; cbn [bind]; [apply IH | reflexivity].
Qed.

(** Neither does the body of the file loop: what it appends depends on the
    file only. *)
Lemma convert_document_frame (islower : char -> bool)
    (clean_func : option (str -> str))
    (split_paragraphs merge_short merge_lowercase : bool)
    (name : str) (document : Converted) (documents : list Doc) :
  convert_document islower clean_func split_paragraphs merge_short
                   merge_lowercase name document documents
  = (new <- convert_document islower clean_func split_paragraphs merge_short
                             merge_lowercase name document [] ;;
     Ok (documents ++ new)).
Proof.
  destruct split_paragraphs; [|reflexivity].
  destruct (convert_document_shape islower clean_func merge_short merge_lowercase
              name document documents)
    as (page0 & pages & r & x & ps & last_para & E1 & E2 & E3 & ->).
  destruct (convert_document_shape islower clean_func merge_short merge_lowercase
              name document [])
    as (page0' & pages' & r' & x' & ps' & last_para' & E1' & E2' & E3' & ->).
  rewrite E1 in E1'. injection E1' as <- <-.
  rewrite E2 in E2'. apply app_inj_tail in E2'. destruct E2' as [<- <-].
  rewrite E3 in E3'. injection E3' as <- <-.
  rewrite <- (app_nil_r documents) at 1. rewrite merge_loop_frame.
  destruct (for_each _ (ps ++ pending last_para) ([], [])) as [[l d]|e];
    cbn [bind]; [|reflexivity].
  now rewrite app_assoc.
Qed.

Lemma file_loop_frame (islower : char -> bool) (convert : Path -> Converted)
    (clean_func : option (str -> str))
    (split_paragraphs merge_short merge_lowercase : bool)
    (file_paths : list Path) :
  forall documents,
    for_each
      (fun documents path =>
         convert_document islower clean_func split_paragraphs merge_short
                          merge_lowercase (path_name path) (convert path)
                          documents)
      file_paths documents
    = (new <- for_each
                (fun documents path =>
                   convert_document islower clean_func split_paragraphs
                                    merge_short merge_lowercase
                                    (path_name path) (convert path) documents)
                file_paths [] ;;
       Ok (documents ++ new)).
Proof.
  induction file_paths as [|path file_paths IH]; intros documents.
  - cbn. now rewrite app_nil_r.
  - cbn [for_each].
    rewrite (convert_document_frame _ _ _ _ _ _ _ documents).
    destruct (convert_document islower clean_func split_paragraphs merge_short
                merge_lowercase (path_name path) (convert path) [])
      as [new|e]; cbn [bind]; [|reflexivity].
    rewrite (IH (documents ++ new)), (IH new).
    destruct (for_each _ file_paths []) as [rest|e]; cbn [bind]; [|reflexivity].
    now rewrite app_assoc.
Qed.

(** X2. The documents of a list of paths are those of its first part
    followed by those of the rest: files are converted one after the other,
    in the order given, and no file changes what another file gives. *)
Theorem files_concatenate (islower : char -> bool) (convert : Path -> Converted)
    (paths1 paths2 : list Path) (clean_func : option (str -> str))
    (split_paragraphs merge_short merge_lowercase : bool) :
  tika_convert_files_to_dicts islower convert (paths1 ++ paths2) clean_func
                              split_paragraphs merge_short merge_lowercase
  = (d1 <- tika_convert_files_to_dicts islower convert paths1 clean_func
                                       split_paragraphs merge_short
                                       merge_lowercase ;;
     d2 <- tika_convert_files_to_dicts islower convert paths2 clean_func
                                       split_paragraphs merge_short
                                       merge_lowercase ;;
     Ok (d1 ++ d2)).
Proof.
  unfold tika_convert_files_to_dicts. rewrite filter_app, for_each_app.
  destruct (for_each _ (filter _ paths1) []) as [d1|e]; cbn [bind]; [|reflexivity].
  apply file_loop_frame.
Qed.

(** A property of the pending paragraph that merging keeps and that every
    paragraph starting a new one has: it holds of every document appended
    after the first, and of all of them when the pass starts from a
    pending paragraph that has it. *)
Section Settled.

Variable islower : char -> bool.
Variables merge_short merge_lowercase : bool.
Variable m : Meta.
Variable J : str -> Prop.

Hypothesis J_merge :
  forall last_para p, strip p <> [] -> J last_para ->
                 J (last_para ++ space ++ strip p).
Hypothesis J_start :
  forall last_para p,
    strip p <> [] ->
    merge_condition islower merge_short merge_lowercase (strip p) last_para
    = Ok false ->
    J (strip p).

Lemma Forall_tl {A} (P : A -> Prop) (xs : list A) :
  Forall P xs -> Forall P (tl xs).
Proof. intros H. destruct H; [constructor | assumption]. Qed.

Lemma merge_loop_settled (paras : list str) :
  forall (last_para : str) (documents : list Doc),
  exists last_para' new,
    for_each (merge_para islower merge_short merge_lowercase m) paras
             (last_para, documents)
    = Ok (last_para', documents ++ new)
    /\ (J last_para -> Forall (fun d => J (text d)) new /\ J last_para')
    /\ Forall (fun d => J (text d)) (tl new)
    /\ (new <> [] -> J last_para').
Proof.
  induction paras as [|p paras IH]; intros last_para documents.
  - exists last_para, []. cbn. rewrite app_nil_r.
    repeat split; auto. congruence.
  - cbn [for_each].
    destruct (merge_para_cases islower merge_short merge_lowercase m
                               last_para documents p)
      as [[Hs ->] | [(Hs & _ & ->) | (Hs & Hc & ->)]]; rewrite bind_ok.
    + apply IH.
    + destruct (IH (last_para ++ space ++ strip p) documents)
        as (l & new & E & H1 & H2 & H3).
      exists l, new. split; [exact E|]. split; [|split; assumption].
      intros HJ. apply H1. now apply J_merge.
    + destruct (IH (strip p) (documents ++ flushed m last_para))
        as (l & new & E & H1 & H2 & H3).
      destruct (H1 (J_start last_para p Hs Hc)) as [Hnew Hl].
      exists l, (flushed m last_para ++ new).
      split; [now rewrite E, app_assoc|].
      split; [|split].
      * intros HJ. split; [|exact Hl]. apply Forall_app. split; [|exact Hnew].
        unfold flushed. destruct (truthy last_para); repeat constructor.
        exact HJ.
      * unfold flushed. destruct (truthy last_para); cbn [app tl];
          [exact Hnew | now apply Forall_tl].
      * intros _. exact Hl.
Qed.

Lemma convert_document_settled (clean_func : option (str -> str))
    (name : str) (document : Converted) (documents : list Doc) :
  m = file_meta name document ->
  exists new,
    convert_document islower clean_func true merge_short merge_lowercase
                     name document documents
    = Ok (documents ++ new)
    /\ (J [] -> Forall (fun d => J (text d)) new)
    /\ Forall (fun d => J (text d)) (tl new).
Proof.
  intros Hm.
  destruct (convert_document_shape islower clean_func merge_short merge_lowercase
              name document documents)
    as (page0 & pages & r & x & ps & last_para & _ & _ & _ & ->).
  rewrite <- Hm.
  destruct (merge_loop_settled (ps ++ pending last_para) [] documents)
    as (l & new & -> & H1 & H2 & H3).
  rewrite bind_ok. exists (new ++ flushed m l).
  split; [now rewrite app_assoc|]. split.
  - intros HJ. destruct (H1 HJ) as [Hnew Hl].
    apply Forall_app. split; [exact Hnew|].
    unfold flushed. destruct (truthy l); repeat constructor. exact Hl.
  - destruct new as [|d new]; cbn [app tl].
    + unfold flushed. destruct (truthy l); constructor.
    + apply Forall_app. split; [exact H2|].
      unfold flushed. destruct (truthy l); repeat constructor.
      apply H3. discriminate.
Qed.

End Settled.

Lemma ok_app_inv {A} (d a b : list A) : Ok (d ++ a) = Ok (d ++ b) -> a = b.
Proof. intros H. injection H as H. now apply app_inv_head in H. Qed.

Lemma lstrip_head (s : str) : lstrip s = [] \/ starts_with_ink (lstrip s) = true.
Proof.
  induction s as [|c s IH]; simpl; [now left|].
  destruct (isspace c) eqn:E; [exact IH|]. right. simpl. now rewrite E.
Qed.

Lemma lstrip_snoc (s : str) (c : char) :
  isspace c = false -> lstrip (s ++ [c]) = lstrip s ++ [c].
Proof.
  intros Hc. induction s as [|d s IH]; simpl.
  - now rewrite Hc.
  - destruct (isspace d); [exact IH | reflexivity].
Qed.

Lemma rstrip_cons (c : char) (s : str) :
  isspace c = false -> rstrip (c :: s) = c :: rstrip s.
Proof.
  intros Hc. unfold rstrip. simpl rev.
  now rewrite lstrip_snoc, rev_unit.
Qed.

Lemma strip_starts_with_ink (p : str) :
  strip p <> [] -> starts_with_ink (strip p) = true.
Proof.
  unfold strip. intros H. destruct (lstrip_head p) as [E|E].
  - rewrite E in H. now contradiction H.
  - destruct (lstrip p) as [|c t]; [discriminate|]. simpl in E.
    apply negb_true_iff in E. rewrite rstrip_cons by exact E.
    simpl. now rewrite E.
Qed.

Lemma ends_with_ink_rev (s : str) : ends_with_ink s = starts_with_ink (rev s).
Proof. unfold ends_with_ink, starts_with_ink. now destruct (rev s). Qed.

Lemma strip_ends_with_ink (p : str) :
  strip p <> [] -> ends_with_ink (strip p) = true.
Proof.
  intros H. rewrite ends_with_ink_rev. unfold strip, rstrip in *.
  rewrite rev_involutive.
  destruct (lstrip_head (rev (lstrip p))) as [E|E]; [|exact E].
  rewrite E in H. now contradiction H.
Qed.

Lemma ends_with_ink_app (a b : str) :
  b <> [] -> ends_with_ink (a ++ b) = ends_with_ink b.
Proof.
  intros Hb. unfold ends_with_ink. rewrite rev_app_distr.
  destruct (rev b) as [|c t] eqn:E; [|reflexivity].
  apply (f_equal (@rev char)) in E. rewrite rev_involutive in E.
  now contradiction Hb.
Qed.

Lemma starts_with_ink_app (a b : str) :
  starts_with_ink a = true -> starts_with_ink (a ++ b) = true.
Proof. destruct a; [discriminate | trivial]. Qed.

(** X3. With [split_paragraphs] set, the texts the function appends are
    trimmed: every one ends with a character that is not whitespace, and
    every one but the first of the file also begins with one. *)
Theorem emitted_texts_trimmed (islower : char -> bool)
    (clean_func : option (str -> str)) (merge_short merge_lowercase : bool)
    (name : str) (document : Converted) (documents : list Doc) :
  exists new,
    convert_document islower clean_func true merge_short merge_lowercase
                     name document documents
    = Ok (documents ++ new)
    /\ Forall (fun d => ends_with_ink (text d) = true) new
    /\ Forall (fun d => starts_with_ink (text d) = true) (tl new).
Proof.
  destruct (reconstruct_spec islower clean_func merge_short merge_lowercase
                             name document documents) as (new & E & _ & Hne).
  destruct (convert_document_settled islower merge_short merge_lowercase
              (file_meta name document)
              (fun s => s = [] \/ ends_with_ink s = true))
    with (clean_func := clean_func) (name := name) (document := document)
         (documents := documents) as (new1 & E1 & Hall & _); trivial.
  { intros last_para p Hp _. right.
    rewrite app_assoc, ends_with_ink_app by exact Hp.
    now apply strip_ends_with_ink. }
  { intros last_para p Hp _. right. now apply strip_ends_with_ink. }
  destruct (convert_document_settled islower merge_short merge_lowercase
              (file_meta name document)
              (fun s => starts_with_ink s = true))
    with (clean_func := clean_func) (name := name) (document := document)
         (documents := documents) as (new2 & E2 & _ & Htl); trivial.
  { intros last_para p _ H. now apply starts_with_ink_app. }
  { intros last_para p Hp _. now apply strip_starts_with_ink. }
  rewrite E in E1, E2. apply ok_app_inv in E1, E2. subst new1 new2.
  exists new. split; [exact E|]. split; [|exact Htl].
  specialize (Hall (or_introl eq_refl)).
  rewrite Forall_forall in *. intros d Hd.
  destruct (Hall d Hd) as [H|H]; [|exact H].
  destruct (Hne d Hd) as [Hi _]. rewrite H in Hi. now contradiction Hi.
Qed.

(** X4. With [split_paragraphs] and [merge_short] set, every text the
    function appends for a file, except possibly the first one, has at
    least 10 characters: a shorter paragraph can only come out alone at the
    head of the file. *)
Theorem only_first_text_short (islower : char -> bool)
    (clean_func : option (str -> str)) (merge_lowercase : bool)
    (name : str) (document : Converted) (documents : list Doc) :
  exists new,
    convert_document islower clean_func true true merge_lowercase
                     name document documents
    = Ok (documents ++ new)
    /\ Forall (fun d => 10 <= length (text d)) (tl new).
Proof.
  destruct (convert_document_settled islower true merge_lowercase
              (file_meta name document) (fun s => 10 <= length s))
    with (clean_func := clean_func) (name := name) (document := document)
         (documents := documents) as (new & E & _ & Htl); trivial.
  - intros last_para p _ H. rewrite length_app. lia.
  - intros last_para p _. unfold merge_condition. cbn [andb].
    destruct (length (strip p) <? 10) eqn:L; [discriminate|].
    intros _. apply Nat.ltb_ge in L. exact L.
  - now exists new.
Qed.

(** A text that begins and ends with ink is left alone by [strip]. *)
Lemma strip_trimmed (s : str) :
  starts_with_ink s = true -> ends_with_ink s = true -> strip s = s.
Proof.
  intros Hs He. unfold strip.
  assert (Hl : lstrip s = s).
  { destruct s as [|c s]; [reflexivity|]. cbn in *.
    apply negb_true_iff in Hs. now rewrite Hs. }
  rewrite Hl. unfold rstrip. rewrite ends_with_ink_rev in He.
  destruct (rev s) as [|c r] eqn:E; [discriminate|]. cbn in He.
  apply negb_true_iff in He. cbn [lstrip]. rewrite He, <- E.
  apply rev_involutive.
Qed.

(** C4, amended.  With [split_paragraphs] and [merge_short] set, a short
    paragraph can come out as a document of its own only as the first
    document of the file: every document the function appends after the
    first has a stripped text of at least 10 characters, so a document whose
    stripped text is shorter than 10 characters is the first one appended.
    A short paragraph that comes out later shares its document with a
    neighbouring paragraph. *)
Theorem standalone_short_only_first (islower : char -> bool)
    (clean_func : option (str -> str)) (merge_lowercase : bool)
    (name : str) (document : Converted) (documents : list Doc) :
  exists new,
    convert_document islower clean_func true true merge_lowercase
                     name document documents
    = Ok (documents ++ new)
    /\ Forall (fun d => 10 <= length (strip (text d))) (tl new)
    /\ (forall d, In d new -> length (strip (text d)) < 10 ->
              hd_error new = Some d).
Proof.
  destruct (convert_document_settled islower true merge_lowercase
              (file_meta name document)
              (fun s => starts_with_ink s = true /\ ends_with_ink s = true
                        /\ 10 <= length s))
    with (clean_func := clean_func) (name := name) (document := document)
         (documents := documents) as (new & E & _ & Htl); trivial.
  - intros last_para p Hp (H1 & _ & H3). split; [|split].
    + now apply starts_with_ink_app.
    + rewrite app_assoc, ends_with_ink_app by exact Hp.
      now apply strip_ends_with_ink.
    + rewrite length_app. lia.
  - intros last_para p Hp. unfold merge_condition. cbn [andb].
    destruct (length (strip p) <? 10) eqn:L; [discriminate|].
    intros _. apply Nat.ltb_ge in L.
    split; [now apply strip_starts_with_ink|].
    split; [now apply strip_ends_with_ink | exact L].
  - assert (Hlate : Forall (fun d => 10 <= length (strip (text d))) (tl new)).
    { eapply Forall_impl; [|exact Htl]. intros d (H1 & H2 & H3).
      now rewrite strip_trimmed. }
    exists new. split; [exact E|]. split; [exact Hlate|].
    intros d Hd Hshort. destruct new as [|d0 rest]; [destruct Hd|].
    cbn [tl hd_error] in *. destruct Hd as [->|Hd]; [reflexivity|].
    rewrite Forall_forall in Hlate. specialize (Hlate d Hd). lia.
Qed.

Lemma starts_with_app (q a rest : str) :
  starts_with q a = true -> starts_with q (a ++ rest) = true.
Proof.
  revert a; induction q as [|c q IH]; intros [|d a]; simpl; try easy.
  rewrite !andb_true_iff. intros [H1 H2]. split; [exact H1 | now apply IH].
Qed.

(** A string without the separator is its own single piece. *)
Lemma split_from_absent (sep s : str) :
  contains sep s = false -> split_from sep 0 s = [s].
Proof.
  induction s as [|c s IH]; intros H; [reflexivity|].
  cbn [contains] in H. apply orb_false_iff in H. destruct H as [H1 H2].
  cbn [split_from]. rewrite H1, (IH H2). reflexivity.
Qed.

(** The first piece is a prefix of the string. *)
Lemma split_from_head_prefix (sep s : str) :
  exists rest, s = hd [] (split_from sep 0 s) ++ rest.
Proof.
  induction s as [|c s [rest IH]]; [now exists []|].
  cbn [split_from]. destruct (starts_with sep (c :: s)).
  - now exists (c :: s).
  - destruct (split_from sep 0 s) as [|h t] eqn:E.
    + now apply split_from_not_nil in E.
    + exists rest. cbn in *. now rewrite IH at 1.
Qed.

(** The pieces of a string that does not contain [q] do not contain it. *)
Lemma split_from_pieces_free (q sep : str) (s : str) :
  forall skip,
    contains q s = false ->
    Forall (fun p => contains q p = false) (split_from sep skip s).
Proof.
  induction s as [|c s IH]; intros skip H.
  - repeat constructor. exact H.
  - cbn [contains] in H. apply orb_false_iff in H. destruct H as [H1 H2].
    assert (Hnil : contains q [] = false).
    { destruct q; [discriminate | reflexivity]. }
    cbn [split_from]. destruct skip as [|k]; [|now apply IH].
    destruct (starts_with sep (c :: s)).
    + constructor; [exact Hnil | now apply IH].
    + specialize (IH 0 H2).
      destruct (split_from_head_prefix sep s) as [rest Hrest].
      destruct (split_from sep 0 s) as [|h t] eqn:E.
      * now apply split_from_not_nil in E.
      * cbn [push_head hd] in *. apply Forall_cons_iff in IH.
        destruct IH as [Hh Ht]. constructor; [|exact Ht].
        cbn [contains]. rewrite Hh, orb_false_r.
        destruct (starts_with q (c :: h)) eqn:S; [|reflexivity].
        apply (starts_with_app _ _ rest) in S. cbn [app] in S.
        rewrite <- Hrest in S. congruence.
Qed.

(** A page without a blank line leaves [paras] as it is. *)
Lemma splice_without_blank_line (pages : list str) :
  Forall (fun p => contains blank_line p = false) pages ->
  forall (paras : list str) (last_para : str),
  exists last_para',
    for_each splice_page pages (paras, last_para) = Ok (paras, last_para').
Proof.
  induction 1 as [|page pages Hpage _ IH]; intros paras last_para.
  - now exists last_para.
  - cbn [for_each]. unfold splice_page at 1.
    rewrite split_paras_ok, bind_ok, (split_from_absent _ _ Hpage).
    cbn [truthy]. rewrite getitem_first, bind_ok. cbn [set_first].
    rewrite bind_ok.
    change [last_para ++ space ++ page] with ([] ++ [last_para ++ space ++ page]).
    rewrite pop_last_snoc, !bind_ok, app_nil_r. apply IH.
Qed.

Lemma flushed_length (m : Meta) (s : str) : length (flushed m s) <= 1.
Proof. unfold flushed. destruct (truthy s); simpl; lia. Qed.

(** X5. Page breaks alone never separate paragraphs: when the converter
    text contains no blank line, the function appends at most one document
    for the file, however many pages the text has. *)
Theorem no_blank_line_one_document (islower : char -> bool)
    (clean_func : option (str -> str)) (merge_short merge_lowercase : bool)
    (name : str) (document : Converted) (documents : list Doc) :
  contains blank_line (conv_text document) = false ->
  exists new,
    convert_document islower clean_func true merge_short merge_lowercase
                     name document documents
    = Ok (documents ++ new)
    /\ length new <= 1.
Proof.
  intros Hfree.
  destruct (convert_document_shape islower clean_func merge_short merge_lowercase
              name document documents)
    as (page0 & pages & r & x & ps & last_para & E1 & E2 & E3 & ->).
  pose proof (split_from_pieces_free blank_line form_feed _ 0 Hfree) as Hp.
  rewrite E1 in Hp. inversion Hp as [|? ? Hpage0 Hpages]; subst.
  rewrite (split_from_absent _ _ Hpage0) in E2.
  change [page0] with ([] ++ [page0]) in E2.
  apply app_inj_tail in E2. destruct E2 as [<- <-].
  destruct (splice_without_blank_line pages Hpages [] page0) as [l' E3'].
  rewrite E3 in E3'. injection E3' as -> <-.
  set (m := file_meta name document).
  cbn [app]. unfold pending. destruct (truthy last_para).
  - cbn [for_each].
    destruct (merge_para_cases islower merge_short merge_lowercase m
                               [] documents last_para)
      as [[_ ->] | [(_ & _ & ->) | (_ & _ & ->)]]; rewrite !bind_ok.
    + exists (flushed m []). split; [reflexivity | apply flushed_length].
    + exists (flushed m ([] ++ space ++ strip last_para)).
      split; [reflexivity | apply flushed_length].
    + exists (flushed m (strip last_para)).
      split; [|apply flushed_length].
      cbn [flushed truthy]. now rewrite app_nil_r.
  - cbn [for_each]. rewrite bind_ok.
    exists (flushed m []). split; [reflexivity | apply flushed_length].
Qed.

Lemma no_blank_line_one_document_witness :
  exists new,
    convert_document ascii_islower None true true true a_txt
                     (plain two_pages_no_blank_line) []
    = Ok ([] ++ new)
    /\ length new <= 1.
Proof.
  apply (no_blank_line_one_document ascii_islower None true true a_txt
           (plain two_pages_no_blank_line) []).
  reflexivity.
Defined.


(** ** [convert_files_to_dicts] *)

Lemma and_then_done {A B} (a : A) (k : A -> outcome B) :
  and_then (Done a) k = k a.
Proof. reflexivity. Qed.

Lemma dict_get_cons {V} (k' : str) (v : V) (d : dict V) (k : str) :
  dict_get ((k', v) :: d) k = if str_eqb k' k then Some v else dict_get d k.
Proof. unfold dict_get. cbn. now destruct (str_eqb k' k). Qed.














Section ConvertFilesFacts.

Variable convert_with : Converter -> Path -> Converted.
Variable clean_func : option (str -> str).
Variable split_paragraphs : bool.

Lemma keep_loop_spec (path : Path) (paras : list str) :
  forall documents,
    loop (keep_para path) paras documents
    = Done (documents
            ++ map (fun q => named_doc q path)
                   (filter (fun q => truthy (strip q)) paras)).
Proof.
  induction paras as [|q paras IH]; intros documents; cbn [loop filter map].
  - now rewrite app_nil_r.
  - unfold keep_para at 1. destruct (truthy (strip q)); cbn [negb and_then].
    + rewrite IH, <- app_assoc. reflexivity.
    + apply IH.
Qed.





End ConvertFilesFacts.

(** No piece of a split contains the separator. *)
Lemma split_from_no_sep (sep : str) :
  sep <> [] ->
  forall s skip, Forall (fun p => contains sep p = false) (split_from sep skip s).
Proof.
  intros Hsep.
  assert (Hnil : contains sep [] = false) by (destruct sep; [congruence | reflexivity]).
  induction s as [|c s IH]; intros skip; cbn [split_from].
  - now repeat constructor.
  - destruct skip as [|k]; [|apply IH].
    destruct (starts_with sep (c :: s)) eqn:S.
    + constructor; [exact Hnil | apply IH].
    + specialize (IH 0).
      destruct (split_from_head_prefix sep s) as [rest Hrest].
      destruct (split_from sep 0 s) as [|h t] eqn:E.
      * now apply split_from_not_nil in E.
      * cbn [push_head hd] in *. apply Forall_cons_iff in IH.
        destruct IH as [Hh Ht]. constructor; [|exact Ht].
        cbn [contains]. rewrite Hh, orb_false_r.
        destruct (starts_with sep (c :: h)) eqn:S'; [|reflexivity].
        apply (starts_with_app _ _ rest) in S'. cbn [app] in S'.
        rewrite <- Hrest in S'. congruence.
Qed.

Lemma ink_concat_not_blank (ps : list str) :
  ink (concat (filter (fun q => truthy (strip q)) ps)) = ink (concat ps).
Proof.
  induction ps as [|q ps IH]; [reflexivity|].
  cbn [filter concat]. destruct (truthy (strip q)) eqn:T.
  - cbn [concat]. now rewrite !ink_app, IH.
  - apply truthy_false, strip_nil in T. now rewrite ink_app, T, IH.
Qed.

(** X7. With [split_paragraphs] set, what [convert_files_to_dicts] appends
    for one file are pieces of the cleaned text: put end to end they have
    the ink of the text after [clean_func], none of them is blank, none
    contains a blank line, and each carries only the name of the file. *)
Theorem split_keeps_cleaned_text (convert_with : Converter -> Path -> Converted)
    (suffix2converter : dict Converter) (clean_func : option (str -> str))
    (suffix : str) (converter : Converter) (documents : list Doc) (p : Path) :
  dict_get suffix2converter suffix = Some converter ->
  exists new,
    convert_path convert_with suffix2converter clean_func true suffix
                 documents p
    = Done (documents ++ new)
    /\ ink (concat (texts new))
       = ink (cleaned clean_func (conv_text (convert_with converter p)))
    /\ Forall (fun d => ink (text d) <> []
                        /\ contains blank_line (text d) = false
                        /\ meta d = [(lit "name", path_name p)]) new.
Proof.
  intros H. unfold convert_path, dict_item. rewrite H. cbn [and_then]. cbv zeta.
  set (t := cleaned clean_func (conv_text (convert_with converter p))).
  rewrite split_paras_ok. cbn [lift and_then]. rewrite keep_loop_spec.
  eexists. split; [reflexivity|]. split.
  - unfold texts. rewrite map_map. cbn [named_doc text]. rewrite map_id.
    rewrite ink_concat_not_blank. apply ink_split_paras.
  - apply Forall_map. apply Forall_forall. intros q Hq.
    apply filter_In in Hq. destruct Hq as [Hq Hs]. cbn [named_doc text meta].
    split; [|split; [|reflexivity]].
    + apply truthy_true in Hs. intros C. apply Hs. now apply strip_nil.
    + pose proof (split_from_no_sep blank_line ltac:(discriminate) t 0) as F.
      rewrite Forall_forall in F. now apply F.
Qed.

Lemma split_keeps_cleaned_text_witness :
  exists new,
    convert_path (fun _ _ => plain hello_text) [(txt, TextConverter)] None true
                 txt [] a_path
    = Done ([] ++ new)
    /\ ink (concat (texts new))
       = ink (cleaned None (conv_text (plain hello_text)))
    /\ Forall (fun d => ink (text d) <> []
                        /\ contains blank_line (text d) = false
                        /\ meta d = [(lit "name", path_name a_path)]) new.
Proof.
  apply (split_keeps_cleaned_text (fun _ _ => plain hello_text)
           [(txt, TextConverter)] None txt TextConverter [] a_path).
  reflexivity.
Defined.


(** ** SQuAD files *)

Lemma dict_get_absent {V} (d : dict V) (k : str) :
  ~ In k (map fst d) -> dict_get d k = None.
Proof.
  induction d as [|[k' v] d IH]; intros H; [reflexivity|].
  rewrite dict_get_cons. cbn [map fst In] in H.
  destruct (str_eqb k' k) eqn:E; [|apply IH; tauto].
  apply str_eqb_eq in E. tauto.
Qed.

(** [update] with a dictionary: its entries win, the others stay. *)
Lemma dict_update_get {V} (other : dict V) :
  NoDup (map fst other) ->
  forall (d : dict V) (k : str),
    dict_get (dict_update d other) k
    = match dict_get other k with
      | Some v => Some v
      | None => dict_get d k
      end.
Proof.
  unfold dict_update.
  induction other as [|[k0 v0] other IH]; intros Hnd d k; [reflexivity|].
  cbn [map fst] in Hnd. apply NoDup_cons_iff in Hnd. destruct Hnd as [Hk0 Hnd].
  cbn [fold_left fst snd]. rewrite (IH Hnd), dict_get_cons.
  destruct (str_eqb k0 k) eqn:E.
  - apply str_eqb_eq in E. subst k0.
    now rewrite (dict_get_absent _ _ Hk0), dict_get_set_same.
  - destruct (dict_get other k); [reflexivity|].
    apply dict_get_set_other. intros ->. now rewrite str_eqb_refl in E.
Qed.

Lemma dict_set_keys {V} (d : dict V) (k : str) (v : V) (x : str) :
  In x (map fst (dict_set d k v)) -> In x (map fst d) \/ x = k.
Proof.
  induction d as [|[k' w] d IH]; cbn [dict_set].
  - cbn. intros [H|[]]. now right.
  - destruct (str_eqb k' k) eqn:E; cbn [map fst In].
    + apply str_eqb_eq in E. subst k'. tauto.
    + intros [H|H]; [tauto|]. apply IH in H. tauto.
Qed.

Lemma dict_set_nodup {V} (d : dict V) (k : str) (v : V) :
  NoDup (map fst d) -> NoDup (map fst (dict_set d k v)).
Proof.
  induction d as [|[k' w] d IH]; intros H; cbn [dict_set].
  - repeat constructor. intros [].
  - cbn [map fst] in H. apply NoDup_cons_iff in H. destruct H as [Hk' H].
    destruct (str_eqb k' k) eqn:E; cbn [map fst].
    + apply str_eqb_eq in E. subst k'. now constructor.
    + constructor; [|now apply IH].
      intros C. apply dict_set_keys in C. destruct C as [C|C]; [tauto|].
      subst k'. now rewrite str_eqb_refl in E.
Qed.

Lemma dict_update_nodup {V} (other d : dict V) :
  NoDup (map fst d) -> NoDup (map fst (dict_update d other)).
Proof.
  unfold dict_update. revert d.
  induction other as [|[k v] other IH]; intros d H; [exact H|].
  cbn [fold_left]. apply IH. now apply dict_set_nodup.
Qed.

Lemma dict_get_filter_keys {V} (f : str -> bool) (d : dict V) (k : str) :
  f k = true ->
  dict_get (filter (fun kv => f (fst kv)) d) k = dict_get d k.
Proof.
  intros Hk. induction d as [|[k' v] d IH]; [reflexivity|].
  cbn [filter fst]. rewrite dict_get_cons.
  destruct (str_eqb k' k) eqn:E.
  - apply str_eqb_eq in E. subst k'. rewrite Hk, dict_get_cons.
    now rewrite str_eqb_refl.
  - destruct (f k'); [|exact IH]. now rewrite dict_get_cons, E.
Qed.

Lemma filter_keys_nodup {V} (f : str * V -> bool) (d : dict V) :
  NoDup (map fst d) -> NoDup (map fst (filter f d)).
Proof.
  induction d as [|kv d IH]; intros H; [constructor|].
  cbn [map] in H. apply NoDup_cons_iff in H. destruct H as [Hk H].
  cbn [filter]. destruct (f kv); [|now apply IH].
  cbn [map]. constructor; [|now apply IH].
  intros C. apply Hk. apply in_map_iff in C. destruct C as (x & Hx & Hin).
  apply filter_In in Hin. apply in_map_iff. exists x. tauto.
Qed.

(** A field kept by the comprehension is found in the new dictionary. *)
Lemma dict_without_get {V} (d : dict V) (ks : list str) (k : str) :
  NoDup (map fst d) ->
  existsb (str_eqb k) ks = false ->
  dict_get (dict_without d ks) k = dict_get d k.
Proof.
  intros Hnd Hk. unfold dict_without.
  rewrite dict_update_get by now apply filter_keys_nodup.
  rewrite (dict_get_filter_keys (fun x => negb (existsb (str_eqb x) ks)))
    by now rewrite Hk.
  now destruct (dict_get d k).
Qed.

Ltac and_then_inv H :=
  repeat match type of H with
         | and_then ?m _ = Done _ =>
             let E := fresh "E" in
             destruct m eqn:E; cbn [and_then] in H; [|discriminate H]
         end.

Lemma iter_length (x : json) (xs : list json) (n : nat) :
  iter x = Done xs -> len x = Done n -> length xs = n.
Proof.
  destruct x; cbn; try discriminate; intros E1 E2;
    injection E1 as <-; injection E2 as <-; now rewrite ?length_map.
Qed.

Section SquadFacts.

Variable ID : Type.
Variable new_id : nat -> ID.
Variable loads : str -> outcome json.

Lemma label_answers_spec (qa : json) (cur_doc : Document ID)
    (answers : list json) :
  forall labels labels',
    loop (label_answer ID qa cur_doc) answers labels = Done labels' ->
    exists new,
      labels' = labels ++ new
      /\ length new = length answers
      /\ Forall (fun l => label_document_id l = document_id cur_doc) new.
Proof.
  induction answers as [|a answers IH]; intros labels labels' H; cbn [loop] in H.
  - injection H as <-. exists []. now rewrite app_nil_r.
  - destruct (label_answer ID qa cur_doc labels a) as [labels1|e] eqn:E;
      cbn [and_then] in H; [|discriminate].
    unfold label_answer in E. and_then_inv E. injection E as <-.
    destruct (IH _ _ H) as (new & -> & Hlen & Hall).
    eexists (_ :: new). split; [now rewrite <- app_assoc|].
    split; [cbn; now rewrite Hlen|]. constructor; [reflexivity | exact Hall].
Qed.

(** X10. Every question gives labels for the document of its paragraph:
    one for each answer and, when it has no answer, exactly one with the
    empty answer and the offset 0. *)
Theorem question_labels (cur_doc : Document ID) (labels labels' : list (Label ID))
    (qa : json) :
  label_qa ID cur_doc labels qa = Done labels' ->
  exists answers n new,
    item qa (lit "answers") = Done answers
    /\ len answers = Done n
    /\ labels' = labels ++ new
    /\ length new = Nat.max 1 n
    /\ Forall (fun l => label_document_id l = document_id cur_doc) new
    /\ (n = 0 ->
        map answer new = [JStr []] /\ map offset_start_in_doc new = [JInt 0]).
Proof.
  unfold label_qa. intros H.
  destruct (item qa (lit "answers")) as [answers|e] eqn:Ea;
    cbn [and_then] in H; [|discriminate].
  destruct (len answers) as [n|e] eqn:En; cbn [and_then] in H; [|discriminate].
  exists answers, n. destruct (0 <? n) eqn:Pos.
  - cbn [and_then] in H.
    destruct (iter answers) as [xs|e] eqn:Ei; cbn [and_then] in H; [|discriminate].
    destruct (label_answers_spec _ _ _ _ _ H) as (new & -> & Hlen & Hall).
    apply Nat.ltb_lt in Pos. rewrite (iter_length _ _ _ Ei En) in Hlen.
    exists new. split; [reflexivity|]. split; [exact En|].
    split; [reflexivity|]. split; [lia|]. split; [exact Hall | lia].
  - and_then_inv H. injection H as <-. apply Nat.ltb_ge in Pos.
    eexists [_]. split; [reflexivity|]. split; [exact En|].
    split; [reflexivity|]. split; [|split].
    + rewrite Nat.max_l by lia. reflexivity.
    + now repeat constructor.
    + intros _. split; reflexivity.
Qed.

Lemma label_qas_spec (cur_doc : Document ID) (qas : list json) :
  forall labels labels',
    loop (label_qa ID cur_doc) qas labels = Done labels' ->
    exists new,
      labels' = labels ++ new
      /\ Forall (fun l => label_document_id l = document_id cur_doc) new.
Proof.
  induction qas as [|qa qas IH]; intros labels labels' H; cbn [loop] in H.
  - injection H as <-. exists []. now rewrite app_nil_r.
  - destruct (label_qa ID cur_doc labels qa) as [labels1|e] eqn:E;
      cbn [and_then] in H; [|discriminate].
    unfold label_qa in E.
    destruct (item qa (lit "answers")) as [answers|e] eqn:Ea;
      cbn [and_then] in E; [|discriminate].
    destruct (len answers) as [n|e] eqn:En; cbn [and_then] in E; [|discriminate].
    destruct (IH _ _ H) as (new & -> & Hall).
    destruct (0 <? n).
    + cbn [and_then] in E.
      destruct (iter answers) as [xs|e] eqn:Ei; cbn [and_then] in E;
        [|discriminate].
      destruct (label_answers_spec _ _ _ _ _ E) as (new1 & -> & _ & Hall1).
      exists (new1 ++ new). split; [now rewrite app_assoc|].
      apply Forall_app. now split.
    + and_then_inv E. injection E as <-.
      eexists (_ :: new). split; [now rewrite <- app_assoc|].
      constructor; [reflexivity | exact Hall].
Qed.

Lemma extract_paragraphs_spec (document_dict : json) (meta_doc : dict json)
    (paragraphs : list json) :
  forall docs labels made docs' labels' made',
    loop (extract_paragraph ID new_id document_dict meta_doc) paragraphs
         (docs, labels, made)
    = Done (docs', labels', made') ->
    exists new_docs new_labels,
      docs' = docs ++ new_docs
      /\ labels' = labels ++ new_labels
      /\ made' = made + length paragraphs
      /\ Forall2 (fun p d => item p (lit "context") = Done (document_text d))
                 paragraphs new_docs
      /\ map document_id new_docs = map new_id (seq made (length paragraphs))
      /\ Forall (fun l => In (label_document_id l) (map document_id new_docs))
                new_labels
      /\ (NoDup (map fst meta_doc) ->
          Forall (fun d => forall k v, dict_get meta_doc k = Some v ->
                                  dict_get (document_meta d) k = Some v)
                 new_docs).
Proof.
  induction paragraphs as [|p paragraphs IH];
    intros docs labels made docs' labels' made' H; cbn [loop] in H.
  - injection H as <- <- <-. exists [], []. rewrite !app_nil_r, Nat.add_0_r.
    repeat split; constructor.
  - destruct (extract_paragraph ID new_id document_dict meta_doc
                                (docs, labels, made) p)
      as [[[docs1 labels1] made1]|e] eqn:E; cbn [and_then] in H; [|discriminate].
    unfold extract_paragraph in E. cbv zeta in E. and_then_inv E.
    injection E as <- <- <-.
    match goal with
    | HL : loop (label_qa ID ?doc) _ labels = Done _ |- _ =>
        destruct (label_qas_spec _ _ _ _ HL) as (nl & -> & Hnl);
        set (cur_doc := doc) in *
    end.
    destruct (IH _ _ _ _ _ _ H) as (nd & nl' & -> & -> & -> & Hctx & Hid & Hlab & Hmeta).
    exists (cur_doc :: nd), (nl ++ nl').
    split; [now rewrite <- app_assoc|]. split; [now rewrite app_assoc|].
    split; [cbn [length]; lia|]. split; [now constructor|].
    split; [cbn [map length seq]; now rewrite Hid|]. split; [|].
    + apply Forall_app. split.
      * eapply Forall_impl; [|exact Hnl]. intros l ->. now left.
      * eapply Forall_impl; [|exact Hlab]. intros l Hl. now right.
    + intros Hnd. constructor; [|now apply Hmeta].
      intros k v Hk. subst cur_doc. cbn [document_meta].
      now rewrite dict_update_get, Hk.
Qed.

(** X8. When [_extract_docs_and_labels_from_dict] returns, it has made one
    [Document] for each paragraph, in order, with the [context] of the
    paragraph as text, and every [Label] it returns carries the id of one of
    these documents. *)
Theorem paragraphs_become_documents (made : nat) (document_dict : json)
    (docs : list (Document ID)) (labels : list (Label ID)) (made' : nat) :
  _extract_docs_and_labels_from_dict ID new_id made document_dict
  = Done (docs, labels, made') ->
  exists paragraphs,
    (ps <-- item document_dict (lit "paragraphs") ;; iter ps) = Done paragraphs
    /\ Forall2 (fun p d => item p (lit "context") = Done (document_text d))
               paragraphs docs
    /\ map document_id docs = map new_id (seq made (length paragraphs))
    /\ made' = made + length paragraphs
    /\ Forall (fun l => In (label_document_id l) (map document_id docs)) labels.
Proof.
  unfold _extract_docs_and_labels_from_dict. intros H.
  destruct (items document_dict) as [its|e]; cbn [and_then] in H; [|discriminate].
  destruct (item document_dict (lit "paragraphs")) as [ps|e];
    cbn [and_then] in *; [|discriminate].
  destruct (iter ps) as [paragraphs|e]; cbn [and_then] in H; [|discriminate].
  destruct (extract_paragraphs_spec _ _ _ _ _ _ _ _ _ H)
    as (nd & nl & -> & -> & -> & Hctx & Hid & Hlab & _).
  exists paragraphs. cbn [app]. repeat split; assumption.
Qed.

(** X9. A field of the SQuAD document other than [paragraphs] and [title]
    is copied into the metadata of every [Document] and wins over a field
    of the paragraph with the same key, and over the [name] taken from the
    title. *)
Theorem document_fields_override (made : nat) (d : dict json)
    (docs : list (Document ID)) (labels : list (Label ID)) (made' : nat)
    (k : str) (v : json) :
  _extract_docs_and_labels_from_dict ID new_id made (JDict d)
  = Done (docs, labels, made') ->
  NoDup (map fst d) ->
  dict_get d k = Some v ->
  existsb (str_eqb k) [lit "paragraphs"; lit "title"] = false ->
  Forall (fun doc => dict_get (document_meta doc) k = Some v) docs.
Proof.
  unfold _extract_docs_and_labels_from_dict. cbn [items and_then].
  intros H Hnd Hk Hother.
  destruct (item (JDict d) (lit "paragraphs")) as [ps|e];
    cbn [and_then] in *; [|discriminate].
  destruct (iter ps) as [paragraphs|e]; cbn [and_then] in H; [|discriminate].
  destruct (extract_paragraphs_spec _ _ _ _ _ _ _ _ _ H)
    as (nd & nl & -> & _ & _ & _ & _ & _ & Hmeta).
  cbn [app]. eapply Forall_impl; [|apply Hmeta].
  - intros doc Hdoc. apply Hdoc. now rewrite dict_without_get.
  - unfold dict_without. apply dict_update_nodup. constructor.
Qed.

(** X11. A SQuAD file whose [data] list is empty makes
    [eval_data_from_json] raise [IndexError], whatever [max_docs]: the
    first document is looked at before the loop. *)
Theorem empty_data_raises (d : dict json) (max_docs : option Z) :
  dict_get d (lit "data") = Some (JList []) ->
  eval_data_from_json ID new_id (JDict d) max_docs = Fail (Builtin IndexError).
Proof.
  intros H. unfold eval_data_from_json, item, dict_item. now rewrite H.
Qed.

Lemma read_documents_limit (m : Z) (documents : list json) :
  forall st st',
    read_documents ID new_id (Some m) documents st = Done st' ->
    read_documents ID new_id None documents st = Done st'
    \/ (m <> 0 /\ m < Z.of_nat (length (fst (fst st'))))%Z.
Proof.
  induction documents as [|document rest IH];
    intros [[docs labels] made] st' H; cbn [read_documents] in *.
  - now left.
  - cbn [limit_reached] in *.
    destruct (negb (m =? 0)%Z && (m <? Z.of_nat (length docs))%Z) eqn:L.
    + injection H as <-. right. apply andb_true_iff in L. destruct L as [L1 L2].
      apply negb_true_iff, Z.eqb_neq in L1. apply Z.ltb_lt in L2. now split.
    + destruct (_extract_docs_and_labels_from_dict ID new_id made document)
        as [[[cd cl] made1]|e]; cbn [and_then] in *; [|discriminate].
      now apply IH.
Qed.

(** X12. [max_docs] is tested before each SQuAD document against the
    documents collected so far, with [>]: when [eval_data_from_json]
    returns, either it has read the whole file, as without [max_docs], or
    it returns more than [max_docs] documents. *)
Theorem max_docs_is_exceeded (data : json) (m : Z)
    (docs : list (Document ID)) (labels : list (Label ID)) :
  eval_data_from_json ID new_id data (Some m) = Done (docs, labels) ->
  eval_data_from_json ID new_id data None = Done (docs, labels)
  \/ (m <> 0 /\ m < Z.of_nat (length docs))%Z.
Proof.
  unfold eval_data_from_json. intros H.
  destruct (item data (lit "data")) as [dd|e]; cbn [and_then] in *; [|discriminate].
  destruct (first_item dd) as [first|e]; cbn [and_then] in *; [|discriminate].
  destruct (member (lit "title") first) as [b|e]; cbn [and_then] in *;
    [|discriminate].
  destruct (iter dd) as [documents|e]; cbn [and_then] in *; [|discriminate].
  destruct (read_documents ID new_id (Some m) documents ([], [], 0))
    as [[[docs1 labels1] made1]|e] eqn:E; cbn [and_then] in H; [|discriminate].
  injection H as <- <-.
  destruct (read_documents_limit _ _ _ _ E) as [E0|Hm].
  - left. now rewrite E0.
  - now right.
Qed.

Lemma read_lines_batches (b : Z) (max_docs : option Z) (lines : list str) :
  forall st,
    Forall (fun y => (b <= Z.of_nat (length (fst y)))%Z)
           (batches (read_lines ID new_id loads (Some b) max_docs lines st))
    /\ (snd (read_lines ID new_id loads (Some b) max_docs lines st) = None ->
        fst (read_lines ID new_id loads (Some b) max_docs lines st) <> []).
Proof.
  induction lines as [|line rest IH]; intros [[docs labels] made];
    cbn [read_lines].
  - split; [constructor | discriminate].
  - destruct (limit_reached max_docs (length docs)).
    { split; [constructor | discriminate]. }
    destruct (document_dict <-- loads line;;
              _extract_docs_and_labels_from_dict ID new_id made document_dict)
      as [[[cd cl] made1]|e].
    2:{ split; [constructor | discriminate]. }
    cbv zeta. destruct (b <=? Z.of_nat (length (docs ++ cd)))%Z eqn:Full.
    + destruct (IH ([], [], made1)) as [H1 H2].
      destruct (read_lines ID new_id loads (Some b) max_docs rest ([], [], made1))
        as [ys e]. unfold batches in *. cbn [fst snd] in *.
      apply Z.leb_le in Full. split; [|discriminate].
      destruct e as [e|].
      * constructor; [exact Full | exact H1].
      * destruct ys as [|y ys]; [now contradiction H2|].
        change (removelast ((docs ++ cd, labels ++ cl) :: y :: ys))
          with ((docs ++ cd, labels ++ cl) :: removelast (y :: ys)).
        constructor; [exact Full | exact H1].
    + apply IH.
Qed.

(** X13. With [batch_size] set, every pair [eval_data_from_jsonl] yields
    before its last one holds at least [batch_size] documents; when an error
    ends the generator, that holds of every pair it has yielded. *)
Theorem batches_are_full (lines : list str) (b : Z) (max_docs : option Z) :
  Forall (fun y => (b <= Z.of_nat (length (fst y)))%Z)
         (batches (eval_data_from_jsonl ID new_id loads lines (Some b) max_docs)).
Proof. apply read_lines_batches. Qed.

Lemma read_lines_limit_unused (b m : Z) (lines : list str) :
  (b <= m + 1)%Z ->
  forall docs labels made,
    (Z.of_nat (length docs) <= m)%Z ->
    read_lines ID new_id loads (Some b) (Some m) lines (docs, labels, made)
    = read_lines ID new_id loads (Some b) None lines (docs, labels, made).
Proof.
  intros Hb. induction lines as [|line rest IH]; intros docs labels made Hlen;
    cbn [read_lines]; [reflexivity|].
  cbn [limit_reached].
  replace (m <? Z.of_nat (length docs))%Z with false
    by (symmetry; apply Z.ltb_ge; lia).
  rewrite andb_false_r.
  destruct (document_dict <-- loads line;;
            _extract_docs_and_labels_from_dict ID new_id made document_dict)
    as [[[cd cl] made1]|e]; [|reflexivity].
  cbv zeta. destruct (b <=? Z.of_nat (length (docs ++ cd)))%Z eqn:Full.
  - rewrite IH; [reflexivity | cbn; lia].
  - apply IH. apply Z.leb_gt in Full. lia.
Qed.

(** X14. In [eval_data_from_jsonl] the test of [max_docs] looks at the
    current batch only: with [batch_size <= max_docs + 1] (and [max_docs]
    not negative) it never stops the reading, and the generator yields what
    it yields without [max_docs]. *)
Theorem max_docs_unused_with_small_batches (lines : list str) (b m : Z) :
  (0 <= m)%Z ->
  (b <= m + 1)%Z ->
  eval_data_from_jsonl ID new_id loads lines (Some b) (Some m)
  = eval_data_from_jsonl ID new_id loads lines (Some b) None.
Proof.
  intros Hm Hb. unfold eval_data_from_jsonl.
  now apply read_lines_limit_unused.
Qed.

Lemma read_lines_concat (b : Z) (lines : list str) :
  forall docs0 labels0 docs labels made,
    snd (read_lines ID new_id loads (Some b) None lines (docs, labels, made))
    = snd (read_lines ID new_id loads None None lines
                      (docs0 ++ docs, labels0 ++ labels, made))
    /\ (snd (read_lines ID new_id loads (Some b) None lines (docs, labels, made))
        = None ->
        fst (read_lines ID new_id loads None None lines
                        (docs0 ++ docs, labels0 ++ labels, made))
        = [(docs0 ++ concat (map fst
              (fst (read_lines ID new_id loads (Some b) None lines
                               (docs, labels, made)))),
            labels0 ++ concat (map snd
              (fst (read_lines ID new_id loads (Some b) None lines
                               (docs, labels, made)))))]).
Proof.
  induction lines as [|line rest IH]; intros docs0 labels0 docs labels made;
    cbn [read_lines limit_reached].
  - cbn. now rewrite !app_nil_r.
  - destruct (document_dict <-- loads line;;
              _extract_docs_and_labels_from_dict ID new_id made document_dict)
      as [[[cd cl] made1]|e]; [|split; [reflexivity | discriminate]].
    cbv zeta. destruct (b <=? Z.of_nat (length (docs ++ cd)))%Z.
    + specialize (IH (docs0 ++ docs ++ cd) (labels0 ++ labels ++ cl) [] [] made1).
      rewrite !app_nil_r in IH. rewrite <- !app_assoc.
      destruct (read_lines ID new_id loads (Some b) None rest ([], [], made1))
        as [ys e]. cbn [fst snd map concat] in *.
      destruct IH as [IH1 IH2]. split; [exact IH1|].
      intros He. rewrite (IH2 He), <- !app_assoc. reflexivity.
    + specialize (IH docs0 labels0 (docs ++ cd) (labels ++ cl) made1).
      now rewrite !app_assoc in *.
Qed.

(** X15. Batching only cuts the stream: [eval_data_from_jsonl] with a
    [batch_size] ends in an error exactly when it does without, and
    otherwise the documents and the labels of its batches, put end to end,
    are the single pair yielded without [batch_size]. *)
Theorem batches_concatenate (lines : list str) (b : Z) :
  snd (eval_data_from_jsonl ID new_id loads lines (Some b) None)
  = snd (eval_data_from_jsonl ID new_id loads lines None None)
  /\ (snd (eval_data_from_jsonl ID new_id loads lines (Some b) None) = None ->
      fst (eval_data_from_jsonl ID new_id loads lines None None)
      = [(concat (map fst
            (fst (eval_data_from_jsonl ID new_id loads lines (Some b) None))),
          concat (map snd
            (fst (eval_data_from_jsonl ID new_id loads lines (Some b) None))))]).
Proof. apply (read_lines_concat b lines [] [] [] [] 0). Qed.

End SquadFacts.

Lemma paragraphs_become_documents_witness :
  exists docs labels made',
    _extract_docs_and_labels_from_dict nat (fun n => n) 0 squad_document
    = Done (docs, labels, made')
    /\ exists paragraphs,
        (ps <-- item squad_document (lit "paragraphs") ;; iter ps)
        = Done paragraphs
        /\ Forall2 (fun p d => item p (lit "context") = Done (document_text d))
                   paragraphs docs
        /\ map document_id docs = map (fun n => n) (seq 0 (length paragraphs))
        /\ made' = 0 + length paragraphs
        /\ Forall (fun l => In (label_document_id l) (map document_id docs))
                  labels.
Proof.
  eexists. eexists. eexists. split.
  - vm_compute. reflexivity.
  - apply (paragraphs_become_documents nat (fun n => n) 0 squad_document).
    vm_compute. reflexivity.
Defined.

Lemma document_fields_override_witness :
  exists docs labels made',
    _extract_docs_and_labels_from_dict nat (fun n => n) 0 (JDict squad_fields)
    = Done (docs, labels, made')
    /\ Forall (fun doc => dict_get (document_meta doc) (lit "name")
                          = Some (JStr (lit "atlas"))) docs.
Proof.
  eexists. eexists. eexists. split.
  - vm_compute. reflexivity.
  - eapply (document_fields_override nat (fun n => n) 0 squad_fields _ _ _
             (lit "name") (JStr (lit "atlas"))).
    + vm_compute. reflexivity.
    + repeat (constructor; [cbn; intuition discriminate|]). constructor.
    + reflexivity.
    + reflexivity.
Defined.

Lemma question_labels_witness :
  exists labels',
    label_qa nat some_document [] squad_open_question = Done labels'
    /\ exists answers n new,
        item squad_open_question (lit "answers") = Done answers
        /\ len answers = Done n
        /\ labels' = [] ++ new
        /\ length new = Nat.max 1 n
        /\ Forall (fun l => label_document_id l = document_id some_document) new
        /\ (n = 0 ->
            map answer new = [JStr []]
            /\ map offset_start_in_doc new = [JInt 0]).
Proof.
  eexists. split.
  - vm_compute. reflexivity.
  - eapply (question_labels nat some_document [] _ squad_open_question).
    vm_compute. reflexivity.
Defined.

Lemma empty_data_raises_witness :
  dict_get squad_no_data (lit "data") = Some (JList [])
  /\ eval_data_from_json nat (fun n => n) (JDict squad_no_data) None
     = Fail (Builtin IndexError).
Proof.
  split.
  - reflexivity.
  - apply (empty_data_raises nat (fun n => n) squad_no_data None). reflexivity.
Defined.

Lemma max_docs_is_exceeded_witness :
  exists docs labels,
    eval_data_from_json nat (fun n => n) squad_data (Some 1%Z)
    = Done (docs, labels)
    /\ (eval_data_from_json nat (fun n => n) squad_data None = Done (docs, labels)
        \/ (1 <> 0 /\ 1 < Z.of_nat (length docs))%Z).
Proof.
  eexists. eexists. split.
  - vm_compute. reflexivity.
  - apply (max_docs_is_exceeded nat (fun n => n) squad_data 1%Z).
    vm_compute. reflexivity.
Defined.

Lemma max_docs_unused_with_small_batches_witness :
  eval_data_from_jsonl nat (fun n => n) loads_squad_document [[]; []; []]
                       (Some 2%Z) (Some 1%Z)
  = eval_data_from_jsonl nat (fun n => n) loads_squad_document [[]; []; []]
                         (Some 2%Z) None.
Proof.
  apply (max_docs_unused_with_small_batches nat (fun n => n)
           loads_squad_document [[]; []; []] 2%Z 1%Z); lia.
Defined.


(** ** [squad_json_to_jsonl] *)

Lemma universal_newlines_one_line (s rest : str) :
  one_line s = true ->
  universal_newlines (s ++ 10%N :: rest) = s ++ 10%N :: universal_newlines rest.
Proof.
  unfold one_line. induction s as [|c s IH]; intros H; [reflexivity|].
  cbn [forallb] in H. apply andb_true_iff in H. destruct H as [Hc H].
  apply andb_true_iff in Hc. destruct Hc as [_ Hc]. apply negb_true_iff in Hc.
  cbn [app universal_newlines]. rewrite Hc. now rewrite IH.
Qed.

Lemma lines_of_one_line (s rest : str) :
  one_line s = true ->
  lines_of (s ++ 10%N :: rest) = (s ++ [10%N]) :: lines_of rest.
Proof.
  unfold one_line. induction s as [|c s IH]; intros H; [reflexivity|].
  cbn [forallb] in H. apply andb_true_iff in H. destruct H as [Hc H].
  apply andb_true_iff in Hc. destruct Hc as [Hc _]. apply negb_true_iff in Hc.
  cbn [app lines_of]. rewrite Hc. now rewrite (IH H).
Qed.

Section JsonlRoundTrip.

Variable ID : Type.
Variable new_id : nat -> ID.
Variable loads : str -> outcome json.
Variable dumps : json -> str.

Lemma written_lines (docs : list json) :
  forall written,
    loop (fun written doc => Done (written ++ dumps doc ++ [10%N])) docs written
    = Done (written ++ concat (map (fun d => dumps d ++ [10%N]) docs)).
Proof.
  induction docs as [|d docs IH]; intros written; cbn [loop map concat].
  - now rewrite app_nil_r.
  - rewrite and_then_done, IH. now rewrite <- !app_assoc.
Qed.

Lemma file_lines_written (docs : list json) :
  Forall (fun d => one_line (dumps d) = true) docs ->
  file_lines (concat (map (fun d => dumps d ++ [10%N]) docs))
  = map (fun d => dumps d ++ [10%N]) docs.
Proof.
  unfold file_lines. induction 1 as [|d docs Hd _ IH]; [reflexivity|].
  cbn [map concat]. rewrite <- app_assoc. cbn [app].
  now rewrite universal_newlines_one_line, lines_of_one_line, IH.
Qed.

Lemma read_lines_of_documents (documents : list json) :
  Forall (fun d => loads (dumps d ++ [10%N]) = Done d) documents ->
  forall st,
    read_lines ID new_id loads None None
               (map (fun d => dumps d ++ [10%N]) documents) st
    = match read_documents ID new_id None documents st with
      | Done (docs, labels, _) => ([(docs, labels)], None)
      | Fail e => ([], Some e)
      end.
Proof.
  induction 1 as [|d documents Hd _ IH]; intros [[docs labels] made];
    cbn [map read_lines read_documents limit_reached]; [reflexivity|].
  rewrite Hd, and_then_done.
  destruct (_extract_docs_and_labels_from_dict ID new_id made d)
    as [[[cd cl] made1]|e]; cbn [and_then]; [|reflexivity].
  apply IH.
Qed.

(** X16. What [squad_json_to_jsonl] writes, [eval_data_from_jsonl] reads
    back: when [json.loads] undoes [json.dump] on the documents of the file
    and [json.dump] writes no line end, the generator, called without
    [batch_size] and [max_docs] on the lines written, yields once, and
    yields the documents and labels [eval_data_from_json] returns for the
    SQuAD file. *)
Theorem jsonl_round_trip (squad_json : json) (documents : list json) :
  (ds <-- item squad_json (lit "data") ;; iter ds) = Done documents ->
  Forall (fun d => loads (dumps d ++ [10%N]) = Done d
                   /\ one_line (dumps d) = true) documents ->
  exists content,
    squad_json_to_jsonl dumps squad_json = Done content
    /\ forall docs labels,
        eval_data_from_json ID new_id squad_json None = Done (docs, labels) ->
        eval_data_from_jsonl ID new_id loads (file_lines content) None None
        = ([(docs, labels)], None).
Proof.
  intros Hdata Hcodec. unfold squad_json_to_jsonl, eval_data_from_json.
  destruct (item squad_json (lit "data")) as [dd|e]; cbn [and_then] in *;
    [|discriminate].
  rewrite Hdata, and_then_done, written_lines. cbn [app].
  eexists. split; [reflexivity|]. intros docs labels H.
  destruct (first_item dd) as [first|e]; cbn [and_then] in H; [|discriminate].
  destruct (member (lit "title") first) as [b|e]; cbn [and_then] in H;
    [|discriminate].
  unfold eval_data_from_jsonl.
  rewrite file_lines_written, read_lines_of_documents.
  - destruct (read_documents ID new_id None documents ([], [], 0))
      as [[[docs1 labels1] made1]|e]; cbn [and_then] in H; [|discriminate].
    now injection H as <- <-.
  - eapply Forall_impl; [|exact Hcodec]. now intros d [H1 _].
  - eapply Forall_impl; [|exact Hcodec]. now intros d [_ H2].
Qed.

End JsonlRoundTrip.

Lemma jsonl_round_trip_witness :
  exists content,
    squad_json_to_jsonl dumps_braces squad_single = Done content
    /\ forall docs labels,
        eval_data_from_json nat (fun n => n) squad_single None
        = Done (docs, labels) ->
        eval_data_from_jsonl nat (fun n => n) loads_squad_document
                             (file_lines content) None None
        = ([(docs, labels)], None).
Proof.
  apply (jsonl_round_trip nat (fun n => n) loads_squad_document dumps_braces
           squad_single [squad_document]).
  - reflexivity.
  - repeat constructor.
Defined.


(** ** [fetch_archive_from_http] *)

Lemma starts_with_cons (a : char) (p s : str) :
  starts_with (a :: p) s = true ->
  exists s', s = a :: s' /\ starts_with p s' = true.
Proof.
  destruct s as [|b s]; cbn; [discriminate|].
  rewrite andb_true_iff, N.eqb_eq. intros [-> H]. now exists s.
Qed.

Lemma split_from_pieces_sep_free (url : str) :
  Forall (fun p => contains (lit "/") p = false) (split_from (lit "/") 0 url).
Proof. apply split_from_no_sep. discriminate. Qed.

Lemma split_ok_sep (url : str) :
  split url (lit "/") = Ok (split_from (lit "/") 0 url).
Proof. reflexivity. Qed.

Lemma starts_with_iff_firstn (p s : str) :
  starts_with p s = true <-> firstn (length p) s = p.
Proof.
  split; [apply starts_with_firstn|].
  revert s; induction p as [|a p IH]; intros [|b s]; cbn; try easy.
  intros H. injection H as -> H. rewrite N.eqb_refl. now apply IH.
Qed.

(** Comparing the last characters with a suffix is [endswith], also for a
    string shorter than the suffix. *)
Lemma last_chars_ends_with (suffix s : str) :
  str_eqb (last_chars (length suffix) s) suffix = ends_with suffix s.
Proof.
  unfold last_chars, ends_with. apply Bool.eq_iff_eq_true.
  rewrite str_eqb_eq, starts_with_iff_firstn, length_rev, firstn_rev.
  split; intros H.
  - now rewrite H.
  - apply (f_equal (@rev char)) in H. now rewrite !rev_involutive in H.
Qed.

Lemma slash_free_concat (ps : list str) :
  Forall (fun p => contains (lit "/") p = false) ps ->
  contains (lit "/") (concat ps) = false.
Proof.
  induction 1 as [|p ps Hp _ IH]; [reflexivity|].
  cbn [concat]. induction p as [|c p IHp]; [exact IH|].
  cbn [contains app] in *. apply orb_false_iff in Hp. destruct Hp as [Hc Hp].
  rewrite (IHp Hp), orb_false_r.
  cbn in *. now destruct (47 =? c)%N.
Qed.

(** Cutting at a one-character separator: the pieces of a string with a
    separator in it are those before it followed by those after it. *)
Lemma split_from_at (c : char) (a t : str) :
  split_from [c] 0 (a ++ c :: t) = split_from [c] 0 a ++ split_from [c] 0 t.
Proof.
  induction a as [|x a IH]; cbn [app split_from starts_with length Nat.sub].
  - now rewrite N.eqb_refl.
  - rewrite !andb_true_r. destruct (c =? x)%N; rewrite IH; [reflexivity|].
    destruct (split_from [c] 0 a) as [|h r] eqn:E; [|reflexivity].
    now apply split_from_not_nil in E.
Qed.

(** X17. The tests on [url[-4:]], [url[-7:]] and [url[-3:]] are tests of
    the ending, also for a url shorter than the suffix: the [zipfile]
    branch is entered exactly when the url ends with [.zip], the [tarfile]
    branch exactly when it ends with [.tar.gz] (never the [gzip] branch,
    although such a url ends with [.gz] too), the [gzip] branch exactly
    when it ends with [.gz] but not with [.tar.gz], and the [else] branch
    exactly when it ends with neither [.zip] nor [.gz].  The file name of
    the [gzip] branch is computed without raising and has no slash; for a
    url that ends with [/.gz] it is the empty string. *)
Theorem branch_chosen_by_ending (url : str) :
  (branch_of_url url = ZipBranch <-> ends_with (lit ".zip") url = true)
  /\ (branch_of_url url = TarBranch <-> ends_with (lit ".tar.gz") url = true)
  /\ (branch_of_url url = GzBranch <->
      ends_with (lit ".gz") url = true
      /\ ends_with (lit ".tar.gz") url = false)
  /\ (branch_of_url url = ElseBranch <->
      ends_with (lit ".zip") url = false /\ ends_with (lit ".gz") url = false)
  /\ (exists filename,
        gz_filename url = Ok filename
        /\ contains (lit "/") filename = false)
  /\ (forall before, url = before ++ lit "/.gz" -> gz_filename url = Ok []).
Proof.
  unfold branch_of_url.
  rewrite (last_chars_ends_with (lit ".zip") url : str_eqb (last_chars 4 url) _ = _).
  rewrite (last_chars_ends_with (lit ".tar.gz") url
           : str_eqb (last_chars 7 url) _ = _).
  rewrite (last_chars_ends_with (lit ".gz") url : str_eqb (last_chars 3 url) _ = _).
  assert (Htar : ends_with (lit ".tar.gz") url = true ->
                 ends_with (lit ".zip") url = false
                 /\ ends_with (lit ".gz") url = true).
  { unfold ends_with. intros H.
    change (rev (lit ".tar.gz")) with ([122; 103; 46] ++ [114; 97; 116; 46])%N in H.
    change (rev (lit ".gz")) with [122; 103; 46]%N.
    change (rev (lit ".zip")) with [112; 105; 122; 46]%N.
    destruct (starts_with_cons _ _ _ H) as (r0 & -> & H0).
    destruct (starts_with_cons _ _ _ H0) as (r1 & -> & H1).
    destruct (starts_with_cons _ _ _ H1) as (r2 & -> & _).
    now split. }
  assert (Hzip : ends_with (lit ".zip") url = true ->
                 ends_with (lit ".gz") url = false).
  { unfold ends_with. intros H.
    change (rev (lit ".zip")) with [112; 105; 122; 46]%N in H.
    change (rev (lit ".gz")) with [122; 103; 46]%N.
    destruct (starts_with_cons _ _ _ H) as (r0 & -> & _). reflexivity. }
  split; [|split; [|split; [|split; [|split]]]].
  - destruct (ends_with (lit ".zip") url);
      [|destruct (ends_with (lit ".tar.gz") url);
        [|destruct (ends_with (lit ".gz") url)]];
      split; intros; try discriminate; reflexivity.
  - destruct (ends_with (lit ".zip") url) eqn:Z.
    + split; [discriminate|]. intros H. destruct (Htar H). discriminate.
    + destruct (ends_with (lit ".tar.gz") url);
        [|destruct (ends_with (lit ".gz") url)];
        split; intros; try discriminate; reflexivity.
  - destruct (ends_with (lit ".zip") url) eqn:Z.
    + split; [discriminate|]. intros [H _]. rewrite (Hzip eq_refl) in H.
      discriminate.
    + destruct (ends_with (lit ".tar.gz") url) eqn:T.
      * split; [discriminate|]. intros [_ H]. discriminate.
      * destruct (ends_with (lit ".gz") url); split;
          try discriminate; try (intros [H _]; discriminate); auto.
  - destruct (ends_with (lit ".zip") url) eqn:Z.
    + split; [discriminate|]. intros [H _]. discriminate.
    + destruct (ends_with (lit ".tar.gz") url) eqn:T.
      * split; [discriminate|]. intros [_ H]. destruct (Htar eq_refl). congruence.
      * destruct (ends_with (lit ".gz") url); split;
          try discriminate; try (intros [_ H]; discriminate); auto.
  - unfold gz_filename. rewrite (split_ok_sep url). cbn [bind].
    pose proof (split_from_pieces_sep_free url) as Hfree.
    destruct (snoc_of_not_nil (split_from (lit "/") 0 url))
      as (r & name & Hrn); [apply split_from_not_nil|].
    rewrite Hrn in *. rewrite getitem_last. cbn [bind].
    eexists. split; [reflexivity|]. unfold remove_all.
    apply slash_free_concat. apply split_from_pieces_free.
    apply Forall_app in Hfree. destruct Hfree as [_ Hname].
    now inversion Hname.
  - intros before ->. unfold gz_filename. rewrite split_ok_sep. cbn [bind].
    change (lit "/.gz") with (47%N :: lit ".gz").
    change (lit "/") with [47%N]. rewrite split_from_at.
    change (split_from [47%N] 0 (lit ".gz")) with ([] ++ [lit ".gz"]).
    rewrite app_assoc, getitem_last. reflexivity.
Qed.


(** ** [save_body_to_pickle] and [load_body_from_pickle] *)

Section PickleFacts.

Variable Item : Type.
Variable pickle_dump : list Item -> bytes.
Variable pickle_load : bytes -> option (list Item).

Hypothesis load_dump : forall items, pickle_load (pickle_dump items) = Some items.

Lemma saved_file (fs : files) (items : list Item) (fn : str) :
  save_body_to_pickle Item pickle_dump pickle_load fs items fn fn
  = Some (pickle_dump
            (load_body_from_pickle Item pickle_load fs fn ++ items)).
Proof.
  unfold save_body_to_pickle, load_body_from_pickle, write_file.
  now rewrite str_eqb_refl.
Qed.

(** X18. What is saved is loaded back: after [save_body_to_pickle] the
    file holds the items it held before, none when it was missing or
    unreadable, followed by the new ones, and the other files are as they
    were. *)
Theorem load_after_save (fs : files) (items : list Item) (fn : str) :
  load_body_from_pickle Item pickle_load
    (save_body_to_pickle Item pickle_dump pickle_load fs items fn) fn
  = load_body_from_pickle Item pickle_load fs fn ++ items
  /\ forall other, other <> fn ->
       save_body_to_pickle Item pickle_dump pickle_load fs items fn other
       = fs other.
Proof.
  split.
  - unfold load_body_from_pickle at 1. now rewrite saved_file, load_dump.
  - intros other Hne. unfold save_body_to_pickle, write_file.
    destruct (str_eqb other fn) eqn:E; [|reflexivity].
    apply str_eqb_eq in E. contradiction.
Qed.

(** X19. Two saves to one file leave every file as one save of the two
    lists of items, the first list in front. *)
Theorem save_twice (fs : files) (items1 items2 : list Item) (fn : str) :
  forall f,
    save_body_to_pickle Item pickle_dump pickle_load
      (save_body_to_pickle Item pickle_dump pickle_load fs items1 fn)
      items2 fn f
    = save_body_to_pickle Item pickle_dump pickle_load fs (items1 ++ items2)
                          fn f.
Proof.
  intros f. unfold save_body_to_pickle at 1. cbv zeta.
  rewrite saved_file, load_dump. unfold write_file.
  destruct (str_eqb f fn) eqn:E.
  - apply str_eqb_eq in E. subst f. rewrite saved_file.
    now rewrite <- app_assoc.
  - unfold save_body_to_pickle, write_file. now rewrite E.
Qed.

End PickleFacts.

Lemma load_dump_numbers (items : list nat) :
  load_numbers (dump_numbers items) = Some items.
Proof.
  unfold load_numbers, dump_numbers. rewrite map_map. f_equal.
  rewrite <- (map_id items) at 2. apply map_ext. intros n. apply Nat2N.id.
Qed.

Lemma load_after_save_witness :
  load_body_from_pickle nat load_numbers
    (save_body_to_pickle nat dump_numbers load_numbers no_files [1; 2]
                         items_pkl) items_pkl
  = load_body_from_pickle nat load_numbers no_files items_pkl ++ [1; 2]
  /\ forall other, other <> items_pkl ->
       save_body_to_pickle nat dump_numbers load_numbers no_files [1; 2]
                           items_pkl other
       = no_files other.
Proof.
  apply (load_after_save nat dump_numbers load_numbers load_dump_numbers
           no_files [1; 2] items_pkl).
Defined.

Lemma save_twice_witness :
  save_body_to_pickle nat dump_numbers load_numbers
    (save_body_to_pickle nat dump_numbers load_numbers no_files [1] items_pkl)
    [2] items_pkl items_pkl
  = save_body_to_pickle nat dump_numbers load_numbers no_files ([1] ++ [2])
                        items_pkl items_pkl.
Proof.
  apply (save_twice nat dump_numbers load_numbers load_dump_numbers
           no_files [1] [2] items_pkl items_pkl).
Defined.
